(** * varlink-go-interface-generator: the code-generation engine

    A shallow embedding of [cmd/varlink-go-interface-generator/main.go]
    and the properties of its type translator ([writeType]) and of its
    binding emitter ([generateTemplate]).

    Go strings are byte strings: they are modelled by [string], one
    [ascii] per byte.  A [bytes.Buffer] that is only ever appended to is
    modelled by its contents, and the code that writes to it by functions
    from the contents before to the contents after. *)

From Stdlib Require Import Strings.String Strings.Ascii Lists.List Arith.PeanoNat
  Arith.Arith Bool.Bool Lia.
Import ListNotations.
Open Scope list_scope.
Open Scope string_scope.

(** ** Byte strings *)

Module Str.

(** [strings.HasPrefix]. *)
Fixpoint HasPrefix (s prefix : string) {struct prefix} : bool :=
  match prefix, s with
  | EmptyString, _ => true
  | String _ _, EmptyString => false
  | String p prefix', String c s' => Ascii.eqb c p && HasPrefix s' prefix'
  end.

(** [strings.Contains]. *)
Fixpoint Contains (s substr : string) : bool :=
  HasPrefix s substr ||
  match s with
  | EmptyString => false
  | String _ s' => Contains s' substr
  end.

(** The suffix of [s] after its first [n] bytes. *)
Fixpoint skipn (n : nat) (s : string) : string :=
  match n, s with
  | O, _ => s
  | S _, EmptyString => EmptyString
  | S n', String _ s' => skipn n' s'
  end.

(** [strings.Replace(s, old, new, 1)] for a non-empty [old]: the first
    occurrence of [old], when there is one, is replaced. *)
Fixpoint ReplaceFirst (s old new : string) : string :=
  if HasPrefix s old then new ++ skipn (String.length old) s
  else match s with
       | EmptyString => EmptyString
       | String c s' => String c (ReplaceFirst s' old new)
       end.

(** [strings.Replace(s, old, "", -1)] for a one-byte [old]: every
    occurrence of the byte is dropped. *)
Fixpoint RemoveByte (s : string) (old : ascii) : string :=
  match s with
  | EmptyString => EmptyString
  | String c s' =>
      if Ascii.eqb c old then RemoveByte s' old else String c (RemoveByte s' old)
  end.

(** [strings.TrimRight(s, cutset)] for a one-byte cutset. *)
Fixpoint TrimRight (s : string) (cut : ascii) : string :=
  match s with
  | EmptyString => EmptyString
  | String c s' =>
      match TrimRight s' cut with
      | EmptyString => if Ascii.eqb c cut then EmptyString else String c EmptyString
      | r => String c r
      end
  end.

End Str.

(** ** The IDL model: package [idl] *)

Module idl.

(** The kinds of [idl.Type]. *)
Inductive TypeKind : Set :=
  | TypeBool | TypeInt | TypeFloat | TypeString | TypeObject | TypeArray
  | TypeMaybe | TypeMap | TypeStruct | TypeEnum | TypeAlias.

(** Modelled from the spec: the declarations of [idl.Type], [idl.TypeField],
    [idl.Alias], [idl.Method], [idl.Error] and [idl.IDL] are in package
    [varlink/idl].  A [Type] is a tagged variant over eleven kinds;
    Array, Map and Maybe carry an element type, Alias the name it refers
    to, Struct an ordered sequence of fields; a field is a name and a
    type. *)
Inductive Type_ : Set :=
  | Bool
  | Int
  | Float
  | String_
  | Enum
  | Object
  | Array (ElementType : Type_)
  | Map (ElementType : Type_)
  | Maybe (ElementType : Type_)
  | Alias_ (Alias : string)
  | Struct (Fields : list TypeField)
with TypeField : Set :=
  | mkTypeField (Name : string) (Type' : Type_).

Definition Kind (t : Type_) : TypeKind :=
  match t with
  | Bool => TypeBool
  | Int => TypeInt
  | Float => TypeFloat
  | String_ => TypeString
  | Enum => TypeEnum
  | Object => TypeObject
  | Array _ => TypeArray
  | Map _ => TypeMap
  | Maybe _ => TypeMaybe
  | Alias_ _ => TypeAlias
  | Struct _ => TypeStruct
  end.

(** [t.Fields]: empty for every kind but Struct. *)
Definition Fields (t : Type_) : list TypeField :=
  match t with
  | Struct fs => fs
  | _ => []
  end.

Definition fName (f : TypeField) : string :=
  match f with mkTypeField n _ => n end.

Definition fType (f : TypeField) : Type_ :=
  match f with mkTypeField _ t => t end.

Record Alias : Set := mkAlias { aName : string; aType : Type_ }.

Record Method : Set := mkMethod { mName : string; In : Type_; Out : Type_ }.

Record Error : Set := mkError { eName : string; eType : Type_ }.

Record IDL : Set := mkIDL {
  Name : string;
  Description : string;
  Aliases : list Alias;
  Methods : list Method;
  Errors : list Error
}.

Definition TypeKind_eqb (k1 k2 : TypeKind) : bool :=
  match k1, k2 with
  | TypeBool, TypeBool | TypeInt, TypeInt | TypeFloat, TypeFloat
  | TypeString, TypeString | TypeObject, TypeObject | TypeArray, TypeArray
  | TypeMaybe, TypeMaybe | TypeMap, TypeMap | TypeStruct, TypeStruct
  | TypeEnum, TypeEnum | TypeAlias, TypeAlias => true
  | _, _ => false
  end.

(** Induction over types and, through the field lists, over fields. *)
Section TypeInd.
Variable P : Type_ -> Prop.
Hypothesis HBool : P Bool.
Hypothesis HInt : P Int.
Hypothesis HFloat : P Float.
Hypothesis HString : P String_.
Hypothesis HEnum : P Enum.
Hypothesis HObject : P Object.
Hypothesis HArray : forall e, P e -> P (Array e).
Hypothesis HMap : forall e, P e -> P (Map e).
Hypothesis HMaybe : forall e, P e -> P (Maybe e).
Hypothesis HAlias : forall n, P (Alias_ n).
Hypothesis HStruct : forall fs, Forall (fun f => P (fType f)) fs -> P (Struct fs).

Fixpoint Type_nested_ind (t : Type_) : P t :=
  match t with
  | Bool => HBool
  | Int => HInt
  | Float => HFloat
  | String_ => HString
  | Enum => HEnum
  | Object => HObject
  | Array e => HArray e (Type_nested_ind e)
  | Map e => HMap e (Type_nested_ind e)
  | Maybe e => HMaybe e (Type_nested_ind e)
  | Alias_ n => HAlias n
  | Struct fs =>
      HStruct fs
        ((fix go (l : list TypeField) : Forall (fun f => P (fType f)) l :=
            match l with
            | [] => Forall_nil _
            | f :: l' =>
                Forall_cons f
                  (match f return P (fType f) with
                   | mkTypeField _ ft => Type_nested_ind ft
                   end)
                  (go l')
            end) fs)
  end.
End TypeInd.

End idl.

(** ** Package [strings]: [Title] *)

Module strings.

(** [strings.Title] of the Go standard library, on ASCII input (the names of
    an interface description are ASCII identifiers): the first letter of
    every word is mapped to upper case, a word starting after a separator.
    Bytes above 0x7F are not separators and are left as they are. *)
Definition inRange (lo hi r : ascii) : bool :=
  ((nat_of_ascii lo <=? nat_of_ascii r) && (nat_of_ascii r <=? nat_of_ascii hi))%nat.

Definition isSeparator (r : ascii) : bool :=
  if (nat_of_ascii r <=? 127)%nat then
    negb (inRange "0" "9" r || inRange "a" "z" r || inRange "A" "Z" r
          || Ascii.eqb r "_")
  else false.

Definition ToTitle (r : ascii) : ascii :=
  if inRange "a" "z" r then ascii_of_nat (nat_of_ascii r - 32) else r.

Fixpoint TitleFrom (prev : ascii) (s : string) : string :=
  match s with
  | EmptyString => EmptyString
  | String r s' =>
      String (if isSeparator prev then ToTitle r else r) (TitleFrom r s')
  end.

Definition Title (s : string) : string := TitleFrom " " s.

End strings.

(** ** Writing to a [bytes.Buffer] *)

(** The escapes of the Go string literals: tab, newline and the double
    quote. *)
Definition TAB : string := String "009" "".
Definition NL : string := String "010" "".
Definition DQ : string := String "034" "".

(** The contents of the buffer. *)
Definition Buffer : Set := string.

(** A piece of code that writes to the buffer [b] it is given. *)
Definition Writer : Set := Buffer -> Buffer.

(** [b.WriteString(s)]. *)
Definition WriteString (s : string) : Writer := fun b => b ++ s.

Definition skip : Writer := fun b => b.

Definition andThen (w1 w2 : Writer) : Writer := fun b => w2 (w1 b).

Notation "w1 ;; w2" := (andThen w1 w2) (at level 61, right associativity).

(** [for _, x := range l { body }]. *)
Section Range.
Context {A : Type} (body : A -> Writer).

Fixpoint forRange (l : list A) : Writer :=
  match l with
  | [] => skip
  | x :: l' => body x ;; forRange l'
  end.
End Range.

(** [for i, x := range l { body }], the index starting at [i]. *)
Section RangeIndex.
Context {A : Type} (body : nat -> A -> Writer).

Fixpoint forRangeFrom (i : nat) (l : list A) : Writer :=
  match l with
  | [] => skip
  | x :: l' => body i x ;; forRangeFrom (S i) l'
  end.
End RangeIndex.

Definition forRangeIndex {A : Type} (l : list A) (body : nat -> A -> Writer) : Writer :=
  forRangeFrom body 0 l.

(** [for i := 0; i < n; i++ { body }]. *)
Fixpoint forTimes (n : nat) (body : Writer) : Writer :=
  match n with
  | O => skip
  | S n' => body ;; forTimes n' body
  end.

(** The text a writer appends to an empty buffer: [b.String()]. *)
Definition text (w : Writer) : string := w "".

(** ** The generator: package [main] *)

Import idl.

Definition goKeywords : list string :=
  [ "break"; "case"; "chan"; "const"; "continue"; "default"; "defer"; "else";
    "fallthrough"; "for"; "func"; "go"; "goto"; "if"; "import"; "interface";
    "map"; "package"; "range"; "return"; "select"; "struct"; "switch"; "type";
    "var" ].

(** [_, ok := goKeywords[name]]. *)
Definition isGoKeyword (name : string) : bool :=
  existsb (String.eqb name) goKeywords.

Definition sanitizeGoName (name : string) : string :=
  if negb (isGoKeyword name) then name else name ++ "_".

(** [writeType]: the type translator.  [json] selects the wire-tagged
    rendering, [ident] is the indentation level of the line a struct body
    is opened on (the callers pass 0, 1 or 2). *)
Fixpoint writeType (t : Type_) (json : bool) (ident : nat) {struct t} : Writer :=
  match t with
  | Bool => WriteString "bool"
  | Int => WriteString "int64"
  | Float => WriteString "float64"
  | String_ | Enum => WriteString "string"
  | Object => WriteString "json.RawMessage"
  | Array e => WriteString "[]" ;; writeType e json ident
  | Map e => WriteString "map[string]" ;; writeType e json ident
  | Maybe e => WriteString "*" ;; writeType e json ident
  | Alias_ n => WriteString n
  | Struct fields =>
      match fields with
      | [] => WriteString "struct{}"
      | _ :: _ =>
          WriteString ("struct {" ++ NL) ;;
          forRange (fun field =>
            forTimes (ident + 1) (WriteString TAB) ;;
            WriteString (strings.Title (fName field) ++ " ") ;;
            writeType (fType field) json (ident + 1) ;;
            (if json then
               WriteString (" `json:" ++ DQ ++ fName field) ;;
               (if TypeKind_eqb (Kind (fType field)) TypeMaybe
                then WriteString ",omitempty" else skip) ;;
               WriteString (DQ ++ "`")
             else skip) ;;
            WriteString NL) fields ;;
          forTimes ident (WriteString TAB) ;;
          WriteString "}"
      end
  end.

(** [case idl.TypeStruct, idl.TypeArray, idl.TypeMap:] against [default:]. *)
Definition isStructArrayMap (k : TypeKind) : bool :=
  match k with
  | TypeStruct | TypeArray | TypeMap => true
  | _ => false
  end.

(** [len(fields) > 0]. *)
Definition nonEmpty {A : Type} (l : list A) : bool := (0 <? List.length l)%nat.

(** *** The bodies of the loops over fields *)

(** Lines 136-139: a parameter of the client call function. *)
Definition callParam (field : TypeField) : Writer :=
  WriteString (", " ++ sanitizeGoName (fName field) ++ " ") ;;
  writeType (fType field) false 1.

(** Lines 145-155: the input struct is filled from the parameters. *)
Definition callAssign (field : TypeField) : Writer :=
  if isStructArrayMap (Kind (fType field)) then
    WriteString (TAB ++ "in." ++ strings.Title (fName field) ++ " = ") ;;
    writeType (fType field) true 1 ;;
    WriteString ("(" ++ sanitizeGoName (fName field) ++ ")" ++ NL)
  else
    WriteString (TAB ++ "in." ++ strings.Title (fName field) ++ " = "
                 ++ sanitizeGoName (fName field) ++ NL).

(** Lines 164-167: an out-pointer parameter of the reply reader. *)
Definition readParam (field : TypeField) : Writer :=
  WriteString (", " ++ sanitizeGoName (fName field) ++ " *") ;;
  writeType (fType field) false 1.

(** Lines 180-192: the out-pointers that are not nil are assigned. *)
Definition readAssign (field : TypeField) : Writer :=
  WriteString (TAB ++ "if " ++ sanitizeGoName (fName field) ++ " != nil {" ++ NL) ;;
  (if isStructArrayMap (Kind (fType field)) then
     WriteString (TAB ++ TAB ++ "*" ++ sanitizeGoName (fName field) ++ " = ") ;;
     writeType (fType field) false 2 ;;
     WriteString (" (out." ++ strings.Title (fName field) ++ ")" ++ NL)
   else
     WriteString (TAB ++ TAB ++ "*" ++ sanitizeGoName (fName field) ++ " = out."
                  ++ strings.Title (fName field) ++ NL)) ;;
  WriteString (TAB ++ "}" ++ NL).

(** Lines 202-205: a parameter of a method of the service interface. *)
Definition interfaceParam (field : TypeField) : Writer :=
  WriteString (", " ++ sanitizeGoName (fName field) ++ " ") ;;
  writeType (fType field) false 1.

(** Lines 216-222 and 249-255: a parameter of a reply method. *)
Definition replyParam (i : nat) (field : TypeField) : Writer :=
  (if (0 <? i)%nat then WriteString ", " else skip) ;;
  WriteString (sanitizeGoName (fName field) ++ " ") ;;
  writeType (fType field) false 1.

(** Lines 228-238 and 261-271: the output struct is filled from the
    parameters. *)
Definition replyAssign (field : TypeField) : Writer :=
  if isStructArrayMap (Kind (fType field)) then
    WriteString (TAB ++ "out." ++ strings.Title (fName field) ++ " = ") ;;
    writeType (fType field) true 1 ;;
    WriteString ("(" ++ sanitizeGoName (fName field) ++ ")" ++ NL)
  else
    WriteString (TAB ++ "out." ++ strings.Title (fName field) ++ " = "
                 ++ sanitizeGoName (fName field) ++ NL).

(** Lines 282-285: a parameter of a dummy method. *)
Definition dummyParam (field : TypeField) : Writer :=
  WriteString (", " ++ sanitizeGoName (fName field) ++ " ") ;;
  writeType (fType field) false 1.

(** Lines 306-316: an argument of the call the dispatcher makes. *)
Definition dispatchArg (field : TypeField) : Writer :=
  if isStructArrayMap (Kind (fType field)) then
    WriteString ", " ;;
    writeType (fType field) false 2 ;;
    WriteString ("(in." ++ strings.Title (fName field) ++ ")")
  else
    WriteString (", in." ++ strings.Title (fName field)).

(** *** The sections of the generated file *)

Section Emit.
Variable midl : IDL.
Variable pkgname : string.

(** Lines 122-124. *)
Definition writeHeader : Writer :=
  WriteString ("// Generated with github.com/varlink/go/cmd/varlink-go-interface-generator" ++ NL) ;;
  WriteString ("package " ++ pkgname ++ NL ++ NL) ;;
  WriteString ("@IMPORTS@" ++ NL ++ NL).

(** Lines 128-130. *)
Definition writeAlias (a : Alias) : Writer :=
  WriteString ("type " ++ aName a ++ " ") ;;
  writeType (aType a) true 0 ;;
  WriteString (NL ++ NL).

(** Lines 135-161: the client call function of a method. *)
Definition writeCall (m : Method) : Writer :=
  WriteString ("func " ++ mName m ++ "(c_ *varlink.Connection, more_ bool, oneway_ bool") ;;
  forRange callParam (Fields (In m)) ;;
  WriteString (") error {" ++ NL) ;;
  (if nonEmpty (Fields (In m)) then
     WriteString (TAB ++ "var in ") ;;
     writeType (In m) true 1 ;;
     WriteString NL ;;
     forRange callAssign (Fields (In m)) ;;
     WriteString (TAB ++ "return c_.Send(" ++ DQ ++ Name midl ++ "." ++ mName m ++ DQ
                  ++ ", in, more_, oneway_)" ++ NL ++ "}" ++ NL ++ NL)
   else
     WriteString (TAB ++ "return c_.Send(" ++ DQ ++ Name midl ++ "." ++ mName m ++ DQ
                  ++ ", nil, more_, oneway_)" ++ NL ++ "}" ++ NL ++ NL)).

(** Lines 163-195: the reply reader of a method. *)
Definition writeRead (m : Method) : Writer :=
  WriteString ("func Read" ++ mName m ++ "_(c *varlink.Connection") ;;
  forRange readParam (Fields (Out m)) ;;
  WriteString (") (bool, error) {" ++ NL) ;;
  (if nonEmpty (Fields (Out m)) then
     WriteString (TAB ++ "var out ") ;;
     writeType (Out m) true 1 ;;
     WriteString NL ;;
     WriteString (TAB ++ "continues_, err := c.Receive(&out)" ++ NL)
   else
     WriteString (TAB ++ "continues_, err := c.Receive(nil)" ++ NL)) ;;
  WriteString (TAB ++ "if err != nil {" ++ NL ++
               TAB ++ TAB ++ "return false, err" ++ NL ++
               TAB ++ "}" ++ NL) ;;
  forRange readAssign (Fields (Out m)) ;;
  WriteString (TAB ++ "return continues_, nil" ++ NL ++ "}" ++ NL ++ NL).

(** Lines 201-206: the signature of a method in the service interface. *)
Definition writeInterfaceMethod (m : Method) : Writer :=
  WriteString (TAB ++ mName m ++ "(c VarlinkCall") ;;
  forRange interfaceParam (Fields (In m)) ;;
  WriteString (") error" ++ NL).

(** Lines 215-243: the reply method of an error. *)
Definition writeReplyError (e : Error) : Writer :=
  WriteString ("func (c *VarlinkCall) Reply" ++ eName e ++ "(") ;;
  forRangeIndex (Fields (eType e)) replyParam ;;
  WriteString (") error {" ++ NL) ;;
  (if nonEmpty (Fields (eType e)) then
     WriteString (TAB ++ "var out ") ;;
     writeType (eType e) true 1 ;;
     WriteString NL ;;
     forRange replyAssign (Fields (eType e)) ;;
     WriteString (TAB ++ "return c.ReplyError(" ++ DQ ++ Name midl ++ "." ++ eName e ++ DQ
                  ++ ", &out)" ++ NL)
   else
     WriteString (TAB ++ "return c.ReplyError(" ++ DQ ++ Name midl ++ "." ++ eName e ++ DQ
                  ++ ", nil)" ++ NL)) ;;
  WriteString ("}" ++ NL ++ NL).

(** Lines 248-276: the reply method of a method. *)
Definition writeReply (m : Method) : Writer :=
  WriteString ("func (c *VarlinkCall) Reply" ++ mName m ++ "(") ;;
  forRangeIndex (Fields (Out m)) replyParam ;;
  WriteString (") error {" ++ NL) ;;
  (if nonEmpty (Fields (Out m)) then
     WriteString (TAB ++ "var out ") ;;
     writeType (Out m) true 1 ;;
     WriteString NL ;;
     forRange replyAssign (Fields (Out m)) ;;
     WriteString (TAB ++ "return c.Reply(&out)" ++ NL)
   else
     WriteString (TAB ++ "return c.Reply(nil)" ++ NL)) ;;
  WriteString ("}" ++ NL ++ NL).

(** Lines 281-288: the dummy implementation of a method. *)
Definition writeDummy (m : Method) : Writer :=
  WriteString ("func (s *VarlinkInterface) " ++ mName m ++ "(c VarlinkCall") ;;
  forRange dummyParam (Fields (In m)) ;;
  WriteString (") error {" ++ NL ++
               TAB ++ "return c.ReplyMethodNotImplemented(" ++ DQ ++ mName m ++ DQ ++ ")" ++ NL ++
               "}" ++ NL ++ NL).

(** Lines 295-322: the branch of the dispatcher for a method. *)
Definition writeDispatchCase (m : Method) : Writer :=
  WriteString (TAB ++ "case " ++ DQ ++ mName m ++ DQ ++ ":" ++ NL) ;;
  (if nonEmpty (Fields (In m)) then
     WriteString (TAB ++ TAB ++ "var in ") ;;
     writeType (In m) true 2 ;;
     WriteString NL ;;
     WriteString (TAB ++ TAB ++ "err := call.GetParameters(&in)" ++ NL ++
                  TAB ++ TAB ++ "if err != nil {" ++ NL ++
                  TAB ++ TAB ++ TAB ++ "return call.ReplyInvalidParameter(" ++ DQ ++ "parameters" ++ DQ ++ ")" ++ NL ++
                  TAB ++ TAB ++ "}" ++ NL) ;;
     WriteString (TAB ++ TAB ++ "return s." ++ pkgname ++ "Interface." ++ mName m ++ "(VarlinkCall{call}") ;;
     (if nonEmpty (Fields (In m)) then forRange dispatchArg (Fields (In m)) else skip) ;;
     WriteString (")" ++ NL)
   else
     WriteString (TAB ++ TAB ++ "return s." ++ pkgname ++ "Interface." ++ mName m
                  ++ "(VarlinkCall{call})" ++ NL)) ;;
  WriteString NL.

(** Lines 292-293: the head of the dispatcher. *)
Definition dispatchHead : string :=
  "func (s *VarlinkInterface) VarlinkDispatch(call varlink.Call, methodname string) error {" ++ NL ++
  TAB ++ "switch methodname {" ++ NL.

(** Lines 324-327: the fallback branch, which closes the dispatcher. *)
Definition dispatchDefault : string :=
  TAB ++ "default:" ++ NL ++
  TAB ++ TAB ++ "return call.ReplyMethodNotFound(methodname)" ++ NL ++
  TAB ++ "}" ++ NL ++
  "}" ++ NL ++ NL.

(** Lines 291-327. *)
Definition writeDispatcher : Writer :=
  WriteString ("// Method call dispatcher" ++ NL) ;;
  WriteString dispatchHead ;;
  forRange writeDispatchCase (Methods midl) ;;
  WriteString dispatchDefault.

(** Lines 333-335: the accessor of the description. *)
Definition writeGetDescription : Writer :=
  WriteString ("// Varlink interface description" ++ NL) ;;
  WriteString ("func (s *VarlinkInterface) VarlinkGetDescription() string {" ++ NL ++
               TAB ++ "return `" ++ Description midl ++ NL ++ "`" ++ NL ++ "}" ++ NL ++ NL).

(** Lines 122-344: everything written to the buffer. *)
Definition writeTemplate : Writer :=
  writeHeader ;;
  WriteString ("// Type declarations" ++ NL) ;;
  forRange writeAlias (Aliases midl) ;;
  WriteString ("// Client method calls and reply readers" ++ NL) ;;
  forRange (fun m => writeCall m ;; writeRead m) (Methods midl) ;;
  WriteString ("// Service interface with all methods" ++ NL) ;;
  WriteString ("type " ++ pkgname ++ "Interface interface {" ++ NL) ;;
  forRange writeInterfaceMethod (Methods midl) ;;
  WriteString ("}" ++ NL ++ NL) ;;
  WriteString ("// Service object with all methods" ++ NL) ;;
  WriteString ("type VarlinkCall struct{ varlink.Call }" ++ NL ++ NL) ;;
  WriteString ("// Reply methods for all varlink errors" ++ NL) ;;
  forRange writeReplyError (Errors midl) ;;
  WriteString ("// Reply methods for all varlink methods" ++ NL) ;;
  forRange writeReply (Methods midl) ;;
  WriteString ("// Dummy methods for all varlink methods" ++ NL) ;;
  forRange writeDummy (Methods midl) ;;
  writeDispatcher ;;
  WriteString ("// Varlink interface name" ++ NL) ;;
  WriteString ("func (s *VarlinkInterface) VarlinkGetName() string {" ++ NL ++
               TAB ++ "return `" ++ Name midl ++ "`" ++ NL ++ "}" ++ NL ++ NL) ;;
  writeGetDescription ;;
  WriteString ("// Service interface" ++ NL) ;;
  WriteString ("type VarlinkInterface struct {" ++ NL ++
               TAB ++ pkgname ++ "Interface" ++ NL ++
               "}" ++ NL ++ NL) ;;
  WriteString ("func VarlinkNew(m " ++ pkgname ++ "Interface) *VarlinkInterface {" ++ NL ++
               TAB ++ "return &VarlinkInterface{m}" ++ NL ++
               "}" ++ NL).
End Emit.

(** Line 119. *)
Definition pkgnameOf (midl : IDL) : string := Str.RemoveByte (Name midl) ".".

Definition importsBoth : string :=
  "import (" ++ NL ++ TAB ++ DQ ++ "github.com/varlink/go/varlink" ++ DQ ++ NL ++
  TAB ++ DQ ++ "encoding/json" ++ DQ ++ NL ++ ")".

Definition importsVarlink : string :=
  "import " ++ DQ ++ "github.com/varlink/go/varlink" ++ DQ.

(** Lines 346-352: the text handed to the formatter. *)
Definition retString (midl : IDL) : string :=
  let ret_string := text (writeTemplate midl (pkgnameOf midl)) in
  if Str.Contains ret_string "json.RawMessage" then
    Str.ReplaceFirst ret_string "@IMPORTS@" importsBoth
  else
    Str.ReplaceFirst ret_string "@IMPORTS@" importsVarlink.

(** *** [generateTemplate]

    The parser [idl.New] and the formatter [format.Source] are outside the
    generator: it is given them.  A Go result [(x, err)] is a sum; the three
    results of [generateTemplate] are the package name, the formatted text
    ([None] for the nil slice) and the error ([None] for nil). *)
Section Generate.
Variable error : Type.
Variable idl_New : string -> IDL + error.
Variable format_Source : string -> string + error.

(** Lines 119-359: generation from the parsed model. *)
Definition generate (midl : IDL) : string * option string * option error :=
  let pkgname := pkgnameOf midl in
  match format_Source (retString midl) with
  | inr err => ("", None, Some err)
  | inl pretty => (pkgname, Some pretty, None)
  end.

Definition generateTemplate (description : string)
  : string * option string * option error :=
  let description := Str.TrimRight description "010" in
  match idl_New description with
  | inr err => ("", None, Some err)
  | inl midl => generate midl
  end.
End Generate.

(** ** The type translator with a bounded recursion depth *)

(** A writer that may give up: [None] when the recursion went deeper than
    the calls it was allowed. *)
Definition Partial : Set := Buffer -> option Buffer.

Definition total (w : Writer) : Partial := fun b => Some (w b).

Definition bindP (p1 p2 : Partial) : Partial :=
  fun b => match p1 b with
           | Some b' => p2 b'
           | None => None
           end.

Notation "p1 >> p2" := (bindP p1 p2) (at level 61, right associativity).

Section RangeP.
Context {A : Type} (body : A -> Partial).

Fixpoint forRangeP (l : list A) : Partial :=
  match l with
  | [] => total skip
  | x :: l' => body x >> forRangeP l'
  end.
End RangeP.

(** [writeType] as a general recursive function: every call, the outermost
    one included, takes one unit of [fuel]. *)
Fixpoint writeTypeFuel (fuel : nat) (t : Type_) (json : bool) (ident : nat) : Partial :=
  match fuel with
  | O => fun _ => None
  | S fuel' =>
      match t with
      | Bool => total (WriteString "bool")
      | Int => total (WriteString "int64")
      | Float => total (WriteString "float64")
      | String_ | Enum => total (WriteString "string")
      | Object => total (WriteString "json.RawMessage")
      | Array e => total (WriteString "[]") >> writeTypeFuel fuel' e json ident
      | Map e => total (WriteString "map[string]") >> writeTypeFuel fuel' e json ident
      | Maybe e => total (WriteString "*") >> writeTypeFuel fuel' e json ident
      | Alias_ n => total (WriteString n)
      | Struct fields =>
          match fields with
          | [] => total (WriteString "struct{}")
          | _ :: _ =>
              total (WriteString ("struct {" ++ NL)) >>
              forRangeP (fun field =>
                total (forTimes (ident + 1) (WriteString TAB)) >>
                total (WriteString (strings.Title (fName field) ++ " ")) >>
                writeTypeFuel fuel' (fType field) json (ident + 1) >>
                total (if json then
                         WriteString (" `json:" ++ DQ ++ fName field) ;;
                         (if TypeKind_eqb (Kind (fType field)) TypeMaybe
                          then WriteString ",omitempty" else skip) ;;
                         WriteString (DQ ++ "`")
                       else skip) >>
                total (WriteString NL)) fields >>
              total (forTimes ident (WriteString TAB)) >>
              total (WriteString "}")
          end
      end
  end.

(** The types [writeType] calls itself on, for a type [t]. *)
Definition children (t : Type_) : list Type_ :=
  match t with
  | Array e | Map e | Maybe e => [e]
  | Struct fs => map fType fs
  | _ => []
  end.

(** The nesting depth of a type. *)
Fixpoint depth (t : Type_) : nat :=
  match t with
  | Array e | Map e | Maybe e => S (depth e)
  | Struct fs => S (fold_right (fun f n => Nat.max (depth (fType f)) n) 0 fs)
  | _ => 0
  end.

(** ** What the writers write *)

(** A writer appends when what it does to a buffer is to append, to
    whatever the buffer holds, the text it writes to an empty one. *)
Definition Appends (w : Writer) : Prop := forall b, w b = b ++ text w.

(** The text of a loop is the concatenation of the texts of its rounds. *)
Fixpoint concatS (l : list string) : string :=
  match l with
  | [] => ""
  | s :: l' => s ++ concatS l'
  end.

(** [n] tabs. *)
Fixpoint indent (n : nat) : string :=
  match n with
  | O => ""
  | S n' => TAB ++ indent n'
  end.

(** The line of a field in the body of a struct, lines 88-101. *)
Definition wireTag (name : string) (omitempty : bool) : string :=
  " `json:" ++ DQ ++ name ++ (if omitempty then ",omitempty" else "") ++ DQ ++ "`".

Definition fieldLine (json : bool) (ident : nat) (field : TypeField) : string :=
  indent (ident + 1) ++ strings.Title (fName field) ++ " "
  ++ text (writeType (fType field) json (ident + 1))
  ++ (if json then wireTag (fName field) (TypeKind_eqb (Kind (fType field)) TypeMaybe)
      else "")
  ++ NL.

(** The wire tags of the struct fields of a type, at any depth, in the
    order they are written: the tag of a field follows the tags inside the
    type of the field. *)
Fixpoint fieldTags (t : Type_) : list string :=
  match t with
  | Array e | Map e | Maybe e => fieldTags e
  | Struct fs =>
      flat_map (fun field =>
        fieldTags (fType field)
        ++ [wireTag (fName field) (TypeKind_eqb (Kind (fType field)) TypeMaybe)])%list fs
  | _ => []
  end.

(** [Tagged tags plain wire]: the text [wire] is the text [plain] with the
    strings of [tags] inserted into it, in this order, and nothing else
    changed. *)
Inductive Tagged : list string -> string -> string -> Prop :=
  | Tagged_same (s : string) : Tagged [] s s
  | Tagged_tag (tag : string) : Tagged [tag] "" tag
  | Tagged_app (l1 l2 : list string) (p1 w1 p2 w2 : string) :
      Tagged l1 p1 w1 -> Tagged l2 p2 w2 ->
      Tagged (l1 ++ l2)%list (p1 ++ p2) (w1 ++ w2).

(** Whether a type holds the Object kind, at any depth. *)
Fixpoint hasObject (t : Type_) : bool :=
  match t with
  | Object => true
  | Array e | Map e | Maybe e => hasObject e
  | Struct fs => existsb (fun field => hasObject (fType field)) fs
  | _ => false
  end.

(** Whether a type of the model holds the Object kind: the types of the
    aliases, the inputs and outputs of the methods, the types of the
    errors. *)
Definition usesObject (midl : IDL) : bool :=
  existsb (fun a => hasObject (aType a)) (Aliases midl)
  || existsb (fun m => hasObject (In m) || hasObject (Out m)) (Methods midl)
  || existsb (fun e => hasObject (eType e)) (Errors midl).

(** ** Package [go/scanner]: where literals and comments end *)

Module scanner.

(** A model of the part of the lexical grammar of Go that decides where
    comments and string, rune and raw string literals start and end.
    [Failed] is reached by a literal that meets the end of its line. *)
Inductive Mode : Set :=
  | Code | AfterSlash | LineComment | BlockComment | BlockCommentStar
  | Interpreted | InterpretedEscape | RuneLit | RuneEscape | RawString
  | Failed.

Definition isByte (c : ascii) (s : string) : bool :=
  match s with
  | String d EmptyString => Ascii.eqb c d
  | _ => false
  end.

Definition next (m : Mode) (c : ascii) : Mode :=
  match m with
  | Code | AfterSlash =>
      if isByte c "/" then
        match m with AfterSlash => LineComment | _ => AfterSlash end
      else if isByte c "*" then
        match m with AfterSlash => BlockComment | _ => Code end
      else if isByte c DQ then Interpreted
      else if isByte c "'" then RuneLit
      else if isByte c "`" then RawString
      else Code
  | LineComment => if isByte c NL then Code else LineComment
  | BlockComment => if isByte c "*" then BlockCommentStar else BlockComment
  | BlockCommentStar =>
      if isByte c "/" then Code
      else if isByte c "*" then BlockCommentStar
      else BlockComment
  | Interpreted =>
      if isByte c "\" then InterpretedEscape
      else if isByte c DQ then Code
      else if isByte c NL then Failed
      else Interpreted
  | InterpretedEscape => if isByte c NL then Failed else Interpreted
  | RuneLit =>
      if isByte c "\" then RuneEscape
      else if isByte c "'" then Code
      else if isByte c NL then Failed
      else RuneLit
  | RuneEscape => if isByte c NL then Failed else RuneLit
  | RawString => if isByte c "`" then Code else RawString
  | Failed => Failed
  end.

Fixpoint scanFrom (m : Mode) (src : string) : Mode :=
  match src with
  | EmptyString => m
  | String c src' => scanFrom (next m c) src'
  end.

(** The source ends inside a raw string literal. *)
Definition rawStringNotTerminated (src : string) : bool :=
  match scanFrom Code src with
  | RawString => true
  | _ => false
  end.

End scanner.

(** ** Interfaces used as examples *)

(** [# json.RawMessage is not used / interface org.example.ping /
    method Ping() -> ()]: the description is the text of the interface. *)
Definition pingDescribed (comment : string) : IDL :=
  mkIDL "org.example.ping"
        ("# " ++ comment ++ NL ++
         "interface org.example.ping" ++ NL ++
         "method Ping() -> ()")
        []
        [mkMethod "Ping" (Struct []) (Struct [])]
        [].

(** A formatter that fails on a raw string literal that is not terminated
    and returns every other text as it is. *)
Definition formatRaw (src : string) : string + string :=
  if scanner.rawStringNotTerminated src
  then inr "raw string literal not terminated"
  else inl src.

(** ** Further notions used in the properties of the generator *)

(** The byte [c] does not occur in [s]. *)
Fixpoint noByte (c : ascii) (s : string) : bool :=
  match s with
  | EmptyString => true
  | String d s' => negb (Ascii.eqb d c) && noByte c s'
  end.

(** A type whose rendering opens no struct body: it holds no struct with
    fields, at any depth. *)
Fixpoint oneLine (t : Type_) : bool :=
  match t with
  | Array e | Map e | Maybe e => oneLine e
  | Struct [] => true
  | Struct (_ :: _) => false
  | _ => true
  end.

(** The inputs and outputs of the methods and the types of the errors are
    structs, as the parser builds them. *)
Definition isStruct (t : Type_) : bool := TypeKind_eqb (Kind t) TypeStruct.

Definition structured (midl : IDL) : bool :=
  forallb (fun m => isStruct (In m) && isStruct (Out m)) (Methods midl)
  && forallb (fun e => isStruct (eType e)) (Errors midl).

(** [sep] between the strings of [l]. *)
Fixpoint join (sep : string) (l : list string) : string :=
  match l with
  | [] => ""
  | [s] => s
  | s :: l' => s ++ sep ++ join sep l'
  end.

(** The text written before the placeholder of the imports, lines
    122-123. *)
Definition headerText (pkgname : string) : string :=
  "// Generated with github.com/varlink/go/cmd/varlink-go-interface-generator" ++ NL
  ++ "package " ++ pkgname ++ NL ++ NL.

(** Whether a byte occurs in none of the names of a type: the names of the
    aliases it refers to and of its fields, at any depth. *)
Fixpoint noByteInNames (c : ascii) (t : Type_) : bool :=
  match t with
  | Alias_ n => noByte c n
  | Array e | Map e | Maybe e => noByteInNames c e
  | Struct fs =>
      forallb (fun field => noByte c (fName field) && noByteInNames c (fType field)) fs
  | _ => true
  end.

(** ** What is written for a field *)

(** The local identifier of a field, in the words of the specification:
    the name of the field, followed by an underscore when the name is a
    reserved word. *)
Definition localIdent (field : TypeField) : string :=
  if isGoKeyword (fName field) then fName field ++ "_" else fName field.

(** The member of a struct for a field. *)
Definition member (field : TypeField) : string := strings.Title (fName field).

(** The plain and the wire-tagged rendering of the type of a field. *)
Definition plainType (ident : nat) (field : TypeField) : string :=
  text (writeType (fType field) false ident).

Definition wireType (ident : nat) (field : TypeField) : string :=
  text (writeType (fType field) true ident).

(** Whether a value of the field goes through a conversion. *)
Definition converted (field : TypeField) : bool :=
  isStructArrayMap (Kind (fType field)).

(** [interface org.example.store / method Ping() -> () /
    method Get(type: int, keys: []string) -> (range: string)]: two methods,
    fields with reserved names. *)
Definition storeInterface : IDL :=
  mkIDL "org.example.store" "interface org.example.store" []
        [ mkMethod "Ping" (Struct []) (Struct []);
          mkMethod "Get"
            (Struct [mkTypeField "type" Int; mkTypeField "keys" (Array String_)])
            (Struct [mkTypeField "range" String_]) ]
        [ mkError "Missing" (Struct [mkTypeField "func" String_]) ].
(** ** Facts about byte strings *)

Module StrFacts.
Import Str.

Lemma app_nil_r (s : string) : s ++ "" = s.
Proof. induction s as [|c s IH]; simpl; [reflexivity | now rewrite IH]. Qed.

Lemma app_assoc (s t u : string) : (s ++ t) ++ u = s ++ (t ++ u).
Proof. induction s as [|c s IH]; simpl; [reflexivity | now rewrite IH]. Qed.

Lemma length_app (s t : string) : String.length (s ++ t) = String.length s + String.length t.
Proof. induction s as [|c s IH]; simpl; [reflexivity | now rewrite IH]. Qed.

Lemma app_inv_head (s t u : string) : s ++ t = s ++ u -> t = u.
Proof.
  induction s as [|c s IH]; simpl; intros H; [exact H|].
  injection H as H. now apply IH.
Qed.

Lemma app_inv_tail (s t u : string) : s ++ u = t ++ u -> s = t.
Proof.
  revert t. induction s as [|c s IH]; intros [|d t] H; simpl in *.
  - reflexivity.
  - apply (f_equal String.length) in H. simpl in H. rewrite length_app in H. lia.
  - apply (f_equal String.length) in H. simpl in H. rewrite length_app in H. lia.
  - injection H as -> H. f_equal. now apply IH.
Qed.

Lemma HasPrefix_app (p s : string) : HasPrefix (p ++ s) p = true.
Proof.
  induction p as [|c p IH]; simpl; [reflexivity|].
  now rewrite Ascii.eqb_refl, IH.
Qed.

Lemma HasPrefix_iff (s p : string) :
  HasPrefix s p = true <-> exists r, s = p ++ r.
Proof.
  revert s. induction p as [|c p IH]; intros s; simpl.
  - split; [intros _; now exists s | reflexivity].
  - destruct s as [|d s]; split.
    + discriminate.
    + intros [r H]; discriminate.
    + intros H. apply andb_true_iff in H as [H1 H2].
      apply Ascii.eqb_eq in H1 as ->. apply IH in H2 as [r ->]. now exists r.
    + intros [r H]. injection H as -> ->.
      rewrite Ascii.eqb_refl. simpl. apply HasPrefix_app.
Qed.

Lemma Contains_iff (s sub : string) :
  Contains s sub = true <-> exists l r, s = l ++ sub ++ r.
Proof.
  induction s as [|c s IH].
  - simpl. rewrite orb_false_r, HasPrefix_iff. split.
    + intros [r H]. now exists "", r.
    + intros [[|d l] [r H]]; [now exists r | discriminate].
  - simpl. rewrite orb_true_iff, HasPrefix_iff, IH. split.
    + intros [[r H] | [l [r H]]].
      * now exists "", r.
      * exists (String c l), r. simpl. now rewrite H.
    + intros [[|d l] [r H]].
      * left. now exists r.
      * right. injection H as -> ->. now exists l, r.
Qed.

Lemma Contains_app_l (s t sub : string) :
  Contains s sub = true -> Contains (s ++ t) sub = true.
Proof.
  rewrite !Contains_iff. intros [l [r ->]]. exists l, (r ++ t).
  now rewrite !app_assoc.
Qed.

Lemma Contains_app_r (s t sub : string) :
  Contains t sub = true -> Contains (s ++ t) sub = true.
Proof.
  rewrite !Contains_iff. intros [l [r ->]]. exists (s ++ l), r.
  now rewrite !app_assoc.
Qed.

End StrFacts.

(** ** Writers only append *)

Lemma Appends_WriteString (s : string) : Appends (WriteString s).
Proof. intros b. reflexivity. Qed.

Lemma Appends_skip : Appends skip.
Proof. intros b. unfold skip, text. now rewrite StrFacts.app_nil_r. Qed.

Lemma Appends_andThen (w1 w2 : Writer) :
  Appends w1 -> Appends w2 -> Appends (w1 ;; w2).
Proof.
  intros H1 H2 b. unfold text, andThen.
  rewrite (H2 (w1 b)), (H2 (w1 "")), (H1 b), StrFacts.app_assoc. reflexivity.
Qed.

Lemma text_andThen (w1 w2 : Writer) :
  Appends w2 -> text (w1 ;; w2) = text w1 ++ text w2.
Proof. intros H2. unfold text, andThen. now rewrite (H2 (w1 "")). Qed.

Lemma text_WriteString (s : string) : text (WriteString s) = s.
Proof. reflexivity. Qed.

Lemma text_skip : text skip = "".
Proof. reflexivity. Qed.

Lemma Appends_if (c : bool) (w1 w2 : Writer) :
  Appends w1 -> Appends w2 -> Appends (if c then w1 else w2).
Proof. now destruct c. Qed.

Lemma Appends_forRange {A : Type} (body : A -> Writer) (l : list A) :
  (forall x, List.In x l -> Appends (body x)) -> Appends (forRange body l).
Proof.
  induction l as [|x l IH]; simpl; intros H.
  - apply Appends_skip.
  - apply Appends_andThen; [apply H; now left | apply IH; intros y Hy; apply H; now right].
Qed.

Lemma Appends_forRangeFrom {A : Type} (body : nat -> A -> Writer) (l : list A) :
  (forall i x, Appends (body i x)) -> forall i, Appends (forRangeFrom body i l).
Proof.
  intros H. induction l as [|x l IH]; simpl; intros i.
  - apply Appends_skip.
  - apply Appends_andThen; [apply H | apply IH].
Qed.

Lemma Appends_forRangeIndex {A : Type} (body : nat -> A -> Writer) (l : list A) :
  (forall i x, Appends (body i x)) -> Appends (forRangeIndex l body).
Proof. intros H. now apply Appends_forRangeFrom. Qed.

Lemma Appends_forTimes (n : nat) (body : Writer) :
  Appends body -> Appends (forTimes n body).
Proof.
  intros H. induction n as [|n IH]; simpl.
  - apply Appends_skip.
  - now apply Appends_andThen.
Qed.

Create HintDb appends.
#[export] Hint Resolve Appends_WriteString Appends_skip Appends_andThen Appends_if
  Appends_forTimes Appends_forRangeIndex : appends.

Lemma text_forRange {A : Type} (body : A -> Writer) (l : list A) :
  (forall x, List.In x l -> Appends (body x)) ->
  text (forRange body l) = concatS (map (fun x => text (body x)) l).
Proof.
  induction l as [|x l IH]; simpl; intros H; [reflexivity|].
  rewrite text_andThen.
  - f_equal. apply IH. intros y Hy. apply H. now right.
  - apply Appends_forRange. intros y Hy. apply H. now right.
Qed.

Lemma text_forTimes_TAB (n : nat) : text (forTimes n (WriteString TAB)) = indent n.
Proof.
  induction n as [|n IH]; simpl; [reflexivity|].
  rewrite text_andThen by auto with appends. now rewrite IH.
Qed.

(** The type translator only appends. *)
Lemma Appends_writeType (t : Type_) :
  forall json ident, Appends (writeType t json ident).
Proof.
  induction t as [| | | | | |e IH|e IH|e IH|n|fs IH] using Type_nested_ind;
    intros json ident; simpl; auto with appends.
  destruct fs as [|f fs]; auto with appends.
  apply Appends_andThen; [auto with appends|].
  apply Appends_andThen; [|auto with appends].
  apply Appends_forRange. intros x Hx.
  rewrite Forall_forall in IH. specialize (IH x Hx).
  destruct json; auto 10 with appends.
Qed.

#[export] Hint Resolve Appends_writeType : appends.

Lemma text_writeType_Struct (f : TypeField) (fs : list TypeField) (json : bool) (ident : nat) :
  text (writeType (Struct (f :: fs)) json ident)
  = "struct {" ++ NL ++ concatS (map (fieldLine json ident) (f :: fs))
    ++ indent ident ++ "}".
Proof.
  change (writeType (Struct (f :: fs)) json ident) with
    (WriteString ("struct {" ++ NL) ;;
     forRange (fun field =>
       forTimes (ident + 1) (WriteString TAB) ;;
       WriteString (strings.Title (fName field) ++ " ") ;;
       writeType (fType field) json (ident + 1) ;;
       (if json then
          WriteString (" `json:" ++ DQ ++ fName field) ;;
          (if TypeKind_eqb (Kind (fType field)) TypeMaybe
           then WriteString ",omitempty" else skip) ;;
          WriteString (DQ ++ "`")
        else skip) ;;
       WriteString NL) (f :: fs) ;;
     forTimes ident (WriteString TAB) ;;
     WriteString "}").
  assert (Hb : forall field : TypeField, Appends
     (forTimes (ident + 1) (WriteString TAB) ;;
       WriteString (strings.Title (fName field) ++ " ") ;;
       writeType (fType field) json (ident + 1) ;;
       (if json then
          WriteString (" `json:" ++ DQ ++ fName field) ;;
          (if TypeKind_eqb (Kind (fType field)) TypeMaybe
           then WriteString ",omitempty" else skip) ;;
          WriteString (DQ ++ "`")
        else skip) ;;
       WriteString NL)).
  { intros field. destruct json; auto 10 with appends. }
  rewrite text_andThen by (apply Appends_andThen;
    [apply Appends_forRange; intros; apply Hb | auto with appends]).
  rewrite text_andThen by auto with appends.
  rewrite text_forRange by (intros; apply Hb).
  rewrite text_andThen by auto with appends.
  rewrite text_forTimes_TAB, !text_WriteString.
  rewrite !StrFacts.app_assoc. do 4 f_equal.
  apply map_ext. intros field. unfold fieldLine.
  rewrite text_andThen by (destruct json; auto 10 with appends).
  rewrite text_andThen by (destruct json; auto 10 with appends).
  rewrite text_andThen by (destruct json; auto 10 with appends).
  rewrite text_andThen by auto with appends.
  rewrite text_forTimes_TAB, !text_WriteString, !StrFacts.app_assoc.
  do 3 f_equal. unfold wireTag.
  destruct json; [|reflexivity].
  rewrite text_andThen by auto with appends.
  rewrite text_andThen by auto with appends.
  rewrite !text_WriteString.
  destruct (TypeKind_eqb (Kind (fType field)) TypeMaybe);
    simpl; rewrite ?StrFacts.app_assoc; reflexivity.
Qed.

Lemma text_writeType_elem (w : string) (e : Type_) (json : bool) (ident : nat) :
  text (WriteString w ;; writeType e json ident) = w ++ text (writeType e json ident).
Proof. now rewrite text_andThen by auto with appends. Qed.

Lemma depth_field_le (f : TypeField) (fs : list TypeField) :
  List.In f fs ->
  depth (fType f) <= fold_right (fun f n => Nat.max (depth (fType f)) n) 0 fs.
Proof.
  induction fs as [|g fs IH]; simpl; [tauto|].
  intros [-> | H]; [lia | specialize (IH H); lia].
Qed.

Lemma depth_children (t s : Type_) : List.In s (children t) -> depth s < depth t.
Proof.
  destruct t; simpl; try tauto; try (intros [<- | []]; lia).
  rewrite in_map_iff. intros [f [<- Hf]].
  apply depth_field_le in Hf. lia.
Qed.

Lemma total_bindP (w : Writer) (p : Partial) (b : Buffer) :
  (total w >> p) b = p (w b).
Proof. reflexivity. Qed.

Lemma forRangeP_total {A : Type} (bodyP : A -> Partial) (body : A -> Writer) (l : list A) :
  (forall x b, List.In x l -> bodyP x b = Some (body x b)) ->
  forall b, forRangeP bodyP l b = Some (forRange body l b).
Proof.
  induction l as [|x l IH]; simpl; intros H b; [reflexivity|].
  unfold bindP, andThen. rewrite H by now left.
  apply IH. intros y b' Hy. apply H. now right.
Qed.

(** With more fuel than the type is deep, the bounded translator returns,
    and it returns what [writeType] writes. *)
Lemma writeTypeFuel_enough (t : Type_) :
  forall fuel json ident b,
    depth t < fuel ->
    writeTypeFuel fuel t json ident b = Some (writeType t json ident b).
Proof.
  induction t as [| | | | | |e IH|e IH|e IH|n|fs IH] using Type_nested_ind;
    intros [|fuel] json ident b Hd; try (exfalso; lia); simpl in Hd;
    try reflexivity.
  - simpl. rewrite total_bindP. apply IH. lia.
  - simpl. rewrite total_bindP. apply IH. lia.
  - simpl. rewrite total_bindP. apply IH. lia.
  - destruct fs as [|f fs]; [reflexivity|].
    cbn [writeTypeFuel writeType]. rewrite total_bindP.
    unfold bindP at 1.
    erewrite forRangeP_total.
    + reflexivity.
    + intros x b' Hx. cbv beta. rewrite !total_bindP.
      unfold bindP at 1.
      rewrite Forall_forall in IH. rewrite (IH x Hx).
      * reflexivity.
      * pose proof (depth_field_le x (f :: fs) Hx). lia.
Qed.

(** ** Wire-tagged and plain renderings *)

Lemma Tagged_prefix (s : string) (l : list string) (p w : string) :
  Tagged l p w -> Tagged l (s ++ p) (s ++ w).
Proof. intros H. exact (Tagged_app [] l s s p w (Tagged_same s) H). Qed.

Lemma Tagged_suffix (s : string) (l : list string) (p w : string) :
  Tagged l p w -> Tagged l (p ++ s) (w ++ s).
Proof.
  intros H. rewrite <- (List.app_nil_r l).
  exact (Tagged_app l [] p w s s H (Tagged_same s)).
Qed.

Lemma Tagged_insert (tag s : string) : Tagged [tag] s (tag ++ s).
Proof. exact (Tagged_app [tag] [] "" tag s s (Tagged_tag tag) (Tagged_same s)). Qed.

Lemma Tagged_fieldLine (ident : nat) (field : TypeField) :
  Tagged (fieldTags (fType field))
         (text (writeType (fType field) false (ident + 1)))
         (text (writeType (fType field) true (ident + 1))) ->
  Tagged (fieldTags (fType field)
          ++ [wireTag (fName field) (TypeKind_eqb (Kind (fType field)) TypeMaybe)])%list
         (fieldLine false ident field) (fieldLine true ident field).
Proof.
  intros H. unfold fieldLine.
  do 3 apply Tagged_prefix.
  apply Tagged_app; [exact H|].
  apply Tagged_insert.
Qed.

Lemma Tagged_fieldLines (ident : nat) (fs : list TypeField) :
  Forall (fun field =>
            forall ident, Tagged (fieldTags (fType field))
                                 (text (writeType (fType field) false ident))
                                 (text (writeType (fType field) true ident))) fs ->
  Tagged (fieldTags (Struct fs))
         (concatS (map (fieldLine false ident) fs))
         (concatS (map (fieldLine true ident) fs)).
Proof.
  induction 1 as [|field fs Hf _ IH]; simpl.
  - apply Tagged_same.
  - apply Tagged_app; [|exact IH].
    apply Tagged_fieldLine, Hf.
Qed.

(** C5. For every type, at any nesting depth and at every indentation
    level, the wire-tagged rendering is the plain rendering with the wire
    tags of the struct fields inserted, one per field, and nothing else
    changed: element types, member names and nesting are the same text in
    both. *)
Theorem writeType_wire_is_plain_with_tags (t : Type_) :
  forall ident : nat,
    Tagged (fieldTags t)
           (text (writeType t false ident))
           (text (writeType t true ident)).
Proof.
  induction t as [| | | | | |e IH|e IH|e IH|n|fs IH] using Type_nested_ind;
    intros ident; try apply Tagged_same.
  - cbn [writeType fieldTags]. rewrite !text_writeType_elem.
    apply Tagged_prefix, IH.
  - cbn [writeType fieldTags]. rewrite !text_writeType_elem.
    apply Tagged_prefix, IH.
  - cbn [writeType fieldTags]. rewrite !text_writeType_elem.
    apply Tagged_prefix, IH.
  - destruct fs as [|f fs]; [apply Tagged_same|].
    rewrite !text_writeType_Struct.
    do 2 apply Tagged_prefix. apply Tagged_suffix.
    now apply Tagged_fieldLines.
Qed.

(** Without struct fields there is no tag: the two renderings are the same
    text. *)
Lemma Tagged_nil (p w : string) : Tagged [] p w -> p = w.
Proof.
  intros H. remember [] as l eqn:El. induction H as [s|tag|l1 l2 p1 w1 p2 w2 H1 IH1 H2 IH2].
  - reflexivity.
  - discriminate.
  - apply List.app_eq_nil in El as [-> ->]. now rewrite IH1, IH2.
Qed.

(** ** Optional fields *)

(** C6. In the wire-tagged rendering of a struct, the line of every field
    ends with the wire tag of the field, made of its unmodified name, and
    the tag holds the omitempty marking if and only if the kind of the
    type of the field is Maybe. *)
Theorem wire_tag_omitempty_iff_Maybe (f : TypeField) (fs : list TypeField) (ident : nat) :
  text (writeType (Struct (f :: fs)) true ident)
  = "struct {" ++ NL
    ++ concatS (map (fun field =>
         indent (ident + 1) ++ strings.Title (fName field) ++ " "
         ++ text (writeType (fType field) true (ident + 1))
         ++ wireTag (fName field) (TypeKind_eqb (Kind (fType field)) TypeMaybe)
         ++ NL) (f :: fs))
    ++ indent ident ++ "}"
  /\ (forall name, wireTag name true = " `json:" ++ DQ ++ name ++ ",omitempty" ++ DQ ++ "`")
  /\ (forall name, wireTag name false = " `json:" ++ DQ ++ name ++ DQ ++ "`")
  /\ (forall field, TypeKind_eqb (Kind (fType field)) TypeMaybe = true
                    <-> Kind (fType field) = TypeMaybe).
Proof.
  split; [apply text_writeType_Struct|].
  split; [reflexivity|]. split; [reflexivity|].
  intros field. destruct (Kind (fType field)); simpl; split;
    intros H; try reflexivity; discriminate.
Qed.

(** ** Termination of the type translator *)

(** C10. The type translator calls itself only on types that are strictly
    less deep than its argument, and it returns on every type: with a
    bound on the recursion above the depth of the type, the bound is never
    reached and the result is what [writeType] writes. *)
Theorem writeType_terminates (t : Type_) (json : bool) (ident : nat) (b : Buffer) :
  (forall s, List.In s (children t) -> depth s < depth t)
  /\ exists n, forall fuel, n <= fuel ->
       writeTypeFuel fuel t json ident b = Some (writeType t json ident b).
Proof.
  split; [intros s; apply depth_children|].
  exists (S (depth t)). intros fuel H.
  apply writeTypeFuel_enough. lia.
Qed.

(** ** The emitter only appends *)

Ltac appends :=
  repeat match goal with
    | |- Appends (WriteString _) => apply Appends_WriteString
    | |- Appends skip => apply Appends_skip
    | |- Appends (writeType _ _ _) => apply Appends_writeType
    | |- Appends (_ ;; _) => apply Appends_andThen
    | |- Appends (if _ then _ else _) => apply Appends_if
    | |- Appends (forTimes _ _) => apply Appends_forTimes
    | |- Appends (forRangeIndex _ _) => apply Appends_forRangeIndex; intros
    | |- Appends (forRange _ _) => apply Appends_forRange; intros
    | |- Appends _ => solve [auto with appends]
    end.

Lemma Appends_callParam (field : TypeField) : Appends (callParam field).
Proof. unfold callParam. appends. Qed.

Lemma Appends_callAssign (field : TypeField) : Appends (callAssign field).
Proof. unfold callAssign. appends. Qed.

Lemma Appends_readParam (field : TypeField) : Appends (readParam field).
Proof. unfold readParam. appends. Qed.

Lemma Appends_readAssign (field : TypeField) : Appends (readAssign field).
Proof. unfold readAssign. appends. Qed.

Lemma Appends_interfaceParam (field : TypeField) : Appends (interfaceParam field).
Proof. unfold interfaceParam. appends. Qed.

Lemma Appends_replyParam (i : nat) (field : TypeField) : Appends (replyParam i field).
Proof. unfold replyParam. appends. Qed.

Lemma Appends_replyAssign (field : TypeField) : Appends (replyAssign field).
Proof. unfold replyAssign. appends. Qed.

Lemma Appends_dummyParam (field : TypeField) : Appends (dummyParam field).
Proof. unfold dummyParam. appends. Qed.

Lemma Appends_dispatchArg (field : TypeField) : Appends (dispatchArg field).
Proof. unfold dispatchArg. appends. Qed.

#[export] Hint Resolve Appends_callParam Appends_callAssign Appends_readParam
  Appends_readAssign Appends_interfaceParam Appends_replyParam Appends_replyAssign
  Appends_dummyParam Appends_dispatchArg : appends.

Lemma Appends_writeHeader (pkgname : string) : Appends (writeHeader pkgname).
Proof. unfold writeHeader. appends. Qed.

Lemma Appends_writeAlias (a : Alias) : Appends (writeAlias a).
Proof. unfold writeAlias. appends. Qed.

Lemma Appends_writeCall (midl : IDL) (m : Method) : Appends (writeCall midl m).
Proof. unfold writeCall. appends. Qed.

Lemma Appends_writeRead (m : Method) : Appends (writeRead m).
Proof. unfold writeRead. appends. Qed.

Lemma Appends_writeInterfaceMethod (m : Method) : Appends (writeInterfaceMethod m).
Proof. unfold writeInterfaceMethod. appends. Qed.

Lemma Appends_writeReplyError (midl : IDL) (e : Error) : Appends (writeReplyError midl e).
Proof. unfold writeReplyError. appends. Qed.

Lemma Appends_writeReply (m : Method) : Appends (writeReply m).
Proof. unfold writeReply. appends. Qed.

Lemma Appends_writeDummy (m : Method) : Appends (writeDummy m).
Proof. unfold writeDummy. appends. Qed.

Lemma Appends_writeDispatchCase (pkgname : string) (m : Method) :
  Appends (writeDispatchCase pkgname m).
Proof. unfold writeDispatchCase. appends. Qed.

#[export] Hint Resolve Appends_writeHeader Appends_writeAlias Appends_writeCall
  Appends_writeRead Appends_writeInterfaceMethod Appends_writeReplyError
  Appends_writeReply Appends_writeDummy Appends_writeDispatchCase : appends.

Lemma Appends_writeDispatcher (midl : IDL) (pkgname : string) :
  Appends (writeDispatcher midl pkgname).
Proof. unfold writeDispatcher. appends. Qed.

Lemma Appends_writeGetDescription (midl : IDL) : Appends (writeGetDescription midl).
Proof. unfold writeGetDescription. appends. Qed.

#[export] Hint Resolve Appends_writeDispatcher Appends_writeGetDescription : appends.

Lemma Appends_writeTemplate (midl : IDL) (pkgname : string) :
  Appends (writeTemplate midl pkgname).
Proof. unfold writeTemplate. appends. Qed.

#[export] Hint Resolve Appends_writeTemplate : appends.

(** ** Methods without input *)

(** Brings a text made of appended pieces to a normal form. *)
Ltac text_norm :=
  unfold text, andThen, WriteString, skip; cbn;
  rewrite ?StrFacts.app_assoc; cbn.

(** C2, as the code has it. For every method with zero input fields, the
    client call function passes nil as the payload of [c_.Send], and the
    branch of the dispatcher for the method decodes nothing: its whole body
    is the call of the interface method with the call wrapper alone. *)
Theorem no_input_nil_payload_no_decoding (midl : IDL) (pkgname : string) (m : Method)
  (Hin : Fields (In m) = []) :
  text (writeCall midl m)
  = "func " ++ mName m ++ "(c_ *varlink.Connection, more_ bool, oneway_ bool) error {" ++ NL
    ++ TAB ++ "return c_.Send(" ++ DQ ++ Name midl ++ "." ++ mName m ++ DQ
    ++ ", nil, more_, oneway_)" ++ NL
    ++ "}" ++ NL ++ NL
  /\ text (writeDispatchCase pkgname m)
     = TAB ++ "case " ++ DQ ++ mName m ++ DQ ++ ":" ++ NL
       ++ TAB ++ TAB ++ "return s." ++ pkgname ++ "Interface." ++ mName m
       ++ "(VarlinkCall{call})" ++ NL
       ++ NL.
Proof.
  unfold writeCall, writeDispatchCase. rewrite Hin. cbn [forRange nonEmpty List.length Nat.ltb Nat.leb].
  split; text_norm; repeat (rewrite ?StrFacts.app_assoc; cbn; f_equal).
Qed.

Lemma no_input_nil_payload_no_decoding_witness :
  Fields (In (mkMethod "Ping" (Struct []) (Struct []))) = []
  /\ Str.Contains
       (text (writeCall (pingDescribed "ping") (mkMethod "Ping" (Struct []) (Struct []))))
       ("c_.Send(" ++ DQ ++ "org.example.ping.Ping" ++ DQ ++ ", nil, more_, oneway_)") = true.
Proof.
  split; [reflexivity|].
  rewrite (proj1 (no_input_nil_payload_no_decoding (pingDescribed "ping") "orgexampleping"
                    (mkMethod "Ping" (Struct []) (Struct [])) eq_refl)).
  vm_compute. reflexivity.
Defined.

(** C2, as stated, fails: the branch of the dispatcher for a method with
    zero input fields does not call the parameter decoder at all, with nil
    or with anything else. *)
Lemma no_input_dispatch_decodes_nil_counterexample :
  Fields (In (mkMethod "Ping" (Struct []) (Struct []))) = []
  /\ Str.Contains
       (text (writeDispatchCase "orgexampleping" (mkMethod "Ping" (Struct []) (Struct []))))
       "GetParameters" = false
  /\ Str.Contains (retString (pingDescribed "ping")) "GetParameters" = false.
Proof. vm_compute. repeat split. Qed.

(** ** Reserved words *)

Lemma isGoKeyword_cases (name : string) :
  isGoKeyword name = true -> List.In name goKeywords.
Proof.
  unfold isGoKeyword. rewrite existsb_exists.
  intros [kw [Hin Heq]]. apply String.eqb_eq in Heq. now subst.
Qed.

(** A name that went through [sanitizeGoName] is not a reserved word. *)
Lemma sanitizeGoName_not_keyword (name : string) :
  isGoKeyword (sanitizeGoName name) = false.
Proof.
  unfold sanitizeGoName. destruct (isGoKeyword name) eqn:Hk; simpl; [|exact Hk].
  apply isGoKeyword_cases in Hk. unfold goKeywords in Hk. simpl in Hk.
  repeat (destruct Hk as [<- | Hk]; [reflexivity|]). contradiction.
Qed.

Lemma sanitizeGoName_keyword (name : string) :
  isGoKeyword name = true -> sanitizeGoName name = name ++ "_".
Proof. unfold sanitizeGoName. now intros ->. Qed.

(** ** The dispatcher *)

Lemma Contains_cons_false (c : ascii) (s sub : string) :
  Str.Contains (String c s) sub = false -> Str.Contains s sub = false.
Proof. simpl. intros H. now apply orb_false_iff in H as [_ H]. Qed.

(** Two names without a double quote that are closed by a double quote in
    the same text are the same name. *)
Lemma quoted_name_inj (n1 n2 r1 r2 : string) :
  Str.Contains n1 DQ = false -> Str.Contains n2 DQ = false ->
  n1 ++ DQ ++ r1 = n2 ++ DQ ++ r2 -> n1 = n2.
Proof.
  unfold DQ. revert n2. induction n1 as [|c n1 IH]; intros [|d n2] H1 H2 H.
  - reflexivity.
  - exfalso. simpl in H. injection H as <- _.
    simpl in H2. discriminate.
  - exfalso. simpl in H. injection H as -> _.
    simpl in H1. discriminate.
  - simpl in H. injection H as -> H. f_equal.
    apply IH; [eapply Contains_cons_false; eassumption
              | eapply Contains_cons_false; eassumption | exact H].
Qed.

Lemma text_writeDispatchCase_label (pkgname : string) (m : Method) :
  exists body,
    text (writeDispatchCase pkgname m)
    = TAB ++ "case " ++ DQ ++ mName m ++ DQ ++ ":" ++ NL ++ body.
Proof.
  unfold writeDispatchCase.
  rewrite text_andThen by appends. rewrite text_WriteString.
  eexists. rewrite !StrFacts.app_assoc. reflexivity.
Qed.

Lemma writeDispatchCase_name_inj (pkgname : string) (m1 m2 : Method) :
  Str.Contains (mName m1) DQ = false -> Str.Contains (mName m2) DQ = false ->
  text (writeDispatchCase pkgname m1) = text (writeDispatchCase pkgname m2) ->
  mName m1 = mName m2.
Proof.
  intros H1 H2 H.
  destruct (text_writeDispatchCase_label pkgname m1) as [b1 E1].
  destruct (text_writeDispatchCase_label pkgname m2) as [b2 E2].
  rewrite E1, E2 in H.
  do 3 apply StrFacts.app_inv_head in H.
  eapply quoted_name_inj; eassumption.
Qed.

Lemma text_dispatchArg (field : TypeField) :
  text (dispatchArg field)
  = if converted field
    then ", " ++ plainType 2 field ++ "(in." ++ member field ++ ")"
    else ", in." ++ member field.
Proof.
  unfold dispatchArg, converted, plainType, member.
  destruct (isStructArrayMap (Kind (fType field))); [|reflexivity].
  rewrite !text_andThen by appends. now rewrite !text_WriteString.
Qed.

(** The whole text of the branch of a method. *)
Lemma text_writeDispatchCase (pkgname : string) (m : Method) :
  text (writeDispatchCase pkgname m)
  = TAB ++ "case " ++ DQ ++ mName m ++ DQ ++ ":" ++ NL
    ++ (if nonEmpty (Fields (In m))
        then TAB ++ TAB ++ "var in " ++ text (writeType (In m) true 2) ++ NL
             ++ TAB ++ TAB ++ "err := call.GetParameters(&in)" ++ NL
             ++ TAB ++ TAB ++ "if err != nil {" ++ NL
             ++ TAB ++ TAB ++ TAB ++ "return call.ReplyInvalidParameter("
             ++ DQ ++ "parameters" ++ DQ ++ ")" ++ NL
             ++ TAB ++ TAB ++ "}" ++ NL
             ++ TAB ++ TAB ++ "return s." ++ pkgname ++ "Interface." ++ mName m
             ++ "(VarlinkCall{call}"
             ++ concatS (map (fun field =>
                  if converted field
                  then ", " ++ plainType 2 field ++ "(in." ++ member field ++ ")"
                  else ", in." ++ member field) (Fields (In m)))
             ++ ")" ++ NL
        else TAB ++ TAB ++ "return s." ++ pkgname ++ "Interface." ++ mName m
             ++ "(VarlinkCall{call})" ++ NL)
    ++ NL.
Proof.
  unfold writeDispatchCase.
  destruct (nonEmpty (Fields (In m)));
    rewrite !text_andThen by appends;
    rewrite ?text_forRange by (intros; appends);
    rewrite ?(map_ext _ _ text_dispatchArg);
    rewrite !text_WriteString, !StrFacts.app_assoc; reflexivity.
Qed.

(** C4. The dispatcher is its head, one branch per declared method, in
    declared order, and one default branch that replies method-not-found,
    and nothing else.  The branch of a method is the case of its bare name,
    once, followed by the decoding of the parameters, when the method has
    input fields, and by the call of the interface method: it holds no other
    case and no default.  When the declared names are distinct identifiers,
    every name is compared against by one branch only and no two branches
    are the same text. *)
Theorem dispatcher_one_branch_per_method (midl : IDL) (pkgname : string)
  (Hdistinct : NoDup (map mName (Methods midl)))
  (Hnames : Forall (fun m => Str.Contains (mName m) DQ = false) (Methods midl)) :
  let branch := fun m =>
    TAB ++ "case " ++ DQ ++ mName m ++ DQ ++ ":" ++ NL
    ++ (if nonEmpty (Fields (In m))
        then TAB ++ TAB ++ "var in " ++ text (writeType (In m) true 2) ++ NL
             ++ TAB ++ TAB ++ "err := call.GetParameters(&in)" ++ NL
             ++ TAB ++ TAB ++ "if err != nil {" ++ NL
             ++ TAB ++ TAB ++ TAB ++ "return call.ReplyInvalidParameter("
             ++ DQ ++ "parameters" ++ DQ ++ ")" ++ NL
             ++ TAB ++ TAB ++ "}" ++ NL
             ++ TAB ++ TAB ++ "return s." ++ pkgname ++ "Interface." ++ mName m
             ++ "(VarlinkCall{call}"
             ++ concatS (map (fun field =>
                  if converted field
                  then ", " ++ plainType 2 field ++ "(in." ++ member field ++ ")"
                  else ", in." ++ member field) (Fields (In m)))
             ++ ")" ++ NL
        else TAB ++ TAB ++ "return s." ++ pkgname ++ "Interface." ++ mName m
             ++ "(VarlinkCall{call})" ++ NL)
    ++ NL in
  text (writeDispatcher midl pkgname)
  = "// Method call dispatcher" ++ NL
    ++ "func (s *VarlinkInterface) VarlinkDispatch(call varlink.Call, methodname string) error {" ++ NL
    ++ TAB ++ "switch methodname {" ++ NL
    ++ concatS (map branch (Methods midl))
    ++ TAB ++ "default:" ++ NL
    ++ TAB ++ TAB ++ "return call.ReplyMethodNotFound(methodname)" ++ NL
    ++ TAB ++ "}" ++ NL
    ++ "}" ++ NL ++ NL
  /\ List.length (map branch (Methods midl)) = List.length (Methods midl)
  /\ (forall m, List.In m (Methods midl) ->
        count_occ string_dec (map mName (Methods midl)) (mName m) = 1)
  /\ NoDup (map branch (Methods midl)).
Proof.
  intros branch.
  assert (Hb : forall m, text (writeDispatchCase pkgname m) = branch m)
    by (intros m; apply text_writeDispatchCase).
  split; [|split; [|split]].
  - unfold writeDispatcher.
    rewrite !text_andThen by appends.
    rewrite text_forRange by (intros; appends).
    rewrite (map_ext _ _ Hb).
    rewrite !text_WriteString. unfold dispatchHead, dispatchDefault.
    rewrite !StrFacts.app_assoc. reflexivity.
  - apply length_map.
  - intros m Hm. apply NoDup_count_occ'; [exact Hdistinct|].
    apply in_map_iff. now exists m.
  - rewrite <- (map_ext _ _ Hb).
    induction (Methods midl) as [|m ms IH]; simpl; [constructor|].
    inversion Hdistinct as [|? ? Hnotin Hrest]; subst.
    inversion Hnames as [|? ? Hm Hms]; subst.
    constructor; [|now apply IH].
    intros Hin. apply in_map_iff in Hin as [m' [Heq Hm']].
    apply Hnotin. apply in_map_iff. exists m'. split; [|exact Hm'].
    rewrite Forall_forall in Hms.
    apply (writeDispatchCase_name_inj pkgname); auto.
Qed.

Lemma dispatcher_one_branch_per_method_witness :
  NoDup (map mName (Methods storeInterface))
  /\ Forall (fun m => Str.Contains (mName m) DQ = false) (Methods storeInterface)
  /\ NoDup (map (fun m => text (writeDispatchCase "orgexamplestore" m))
              (Methods storeInterface))
  /\ count_occ string_dec (map mName (Methods storeInterface)) "Get" = 1.
Proof.
  assert (H1 : NoDup (map mName (Methods storeInterface))).
  { simpl. constructor; [intros [H|[]]; discriminate H|].
    constructor; [intros []|constructor]. }
  assert (H2 : Forall (fun m => Str.Contains (mName m) DQ = false)
                      (Methods storeInterface)).
  { simpl. repeat constructor. }
  split; [exact H1|]. split; [exact H2|].
  pose proof (dispatcher_one_branch_per_method storeInterface "orgexamplestore" H1 H2)
    as [_ [_ [Hcount Hnodup]]].
  split.
  - rewrite (map_ext _ _ (text_writeDispatchCase "orgexamplestore")). exact Hnodup.
  - apply (Hcount (mkMethod "Get"
             (Struct [mkTypeField "type" Int; mkTypeField "keys" (Array String_)])
             (Struct [mkTypeField "range" String_]))).
    simpl. right. now left.
Defined.

(** ** The import of encoding/json *)

(** C1 fails on the code. The interface below has one method without
    input or output, and so no type of Object kind, but its description
    mentions json.RawMessage in a comment: the text handed to the formatter
    imports encoding/json all the same. *)
Theorem json_import_without_Object :
  usesObject (pingDescribed "json.RawMessage is not used") = false
  /\ Str.Contains (retString (pingDescribed "json.RawMessage is not used"))
                  (DQ ++ "encoding/json" ++ DQ) = true
  /\ Str.Contains (retString (pingDescribed "nothing is used"))
                  (DQ ++ "encoding/json" ++ DQ) = false.
Proof. vm_compute. repeat split. Qed.

(** ** Failures *)

(** C8. When the formatter rejects the assembled text, [generate] returns
    the error of the formatter with an empty package name and no text, and
    so does [generateTemplate] on a description parsed to this model; and
    whenever [generateTemplate] returns an error, the package name is empty
    and there is no text. *)
Theorem format_error_propagated_no_output (error : Type)
  (idl_New : string -> IDL + error) (format_Source : string -> string + error)
  (midl : IDL) (err : error)
  (Hformat : format_Source (retString midl) = inr err) :
  generate error format_Source midl = ("", None, Some err)
  /\ (forall description,
        idl_New (Str.TrimRight description "010") = inl midl ->
        generateTemplate error idl_New format_Source description = ("", None, Some err))
  /\ (forall description pkgname pretty err',
        generateTemplate error idl_New format_Source description
        = (pkgname, pretty, Some err') ->
        pkgname = "" /\ pretty = None).
Proof.
  assert (Hg : generate error format_Source midl = ("", None, Some err)).
  { unfold generate. now rewrite Hformat. }
  split; [exact Hg|]. split.
  - intros description Hparse. unfold generateTemplate. now rewrite Hparse.
  - intros description pkgname pretty err'. unfold generateTemplate, generate.
    destruct (idl_New (Str.TrimRight description "010")) as [m|e].
    + destruct (format_Source (retString m)) as [p|e]; intros H; inversion H.
      now split.
    + intros H; inversion H. now split.
Qed.

Lemma format_error_propagated_no_output_witness :
  formatRaw (retString (pingDescribed "says `hi")) = inr "raw string literal not terminated"
  /\ generate string formatRaw (pingDescribed "says `hi")
     = ("", None, Some "raw string literal not terminated").
Proof.
  assert (H : formatRaw (retString (pingDescribed "says `hi"))
              = inr "raw string literal not terminated") by (vm_compute; reflexivity).
  split; [exact H|].
  exact (proj1 (format_error_propagated_no_output string
                  (fun _ => inl (pingDescribed "says `hi")) formatRaw
                  (pingDescribed "says `hi") "raw string literal not terminated" H)).
Defined.

(** ** A backquote in the description *)

Lemma occurs_app_r (s t sub : string) :
  (exists l r, t = l ++ sub ++ r) -> exists l r, s ++ t = l ++ sub ++ r.
Proof.
  intros [l [r ->]]. exists (s ++ l), r. now rewrite StrFacts.app_assoc.
Qed.

Lemma occurs_app_l (s t sub : string) :
  (exists l r, s = l ++ sub ++ r) -> exists l r, s ++ t = l ++ sub ++ r.
Proof.
  intros [l [r ->]]. exists l, (r ++ t). now rewrite !StrFacts.app_assoc.
Qed.

(** The description is written as it is between two backquotes. *)
Lemma description_verbatim (midl : IDL) (pkgname : string) :
  exists before after,
    text (writeTemplate midl pkgname)
    = before ++ ("return `" ++ Description midl ++ NL ++ "`") ++ after.
Proof.
  unfold writeTemplate. rewrite !text_andThen by appends.
  do 20 apply occurs_app_r. apply occurs_app_l.
  unfold writeGetDescription. rewrite text_andThen by appends.
  rewrite !text_WriteString.
  exists (("// Varlink interface description" ++ NL)
          ++ "func (s *VarlinkInterface) VarlinkGetDescription() string {" ++ NL ++ TAB),
         (NL ++ "}" ++ NL ++ NL).
  rewrite !StrFacts.app_assoc. reflexivity.
Qed.

(** C9. The description is embedded as it is in a raw string literal of the
    description accessor; so, with a formatter that rejects, as the Go
    formatter does, a source that ends inside a raw string literal, there is
    an interface with a backquote in its description on which [generate]
    fails with the error of the formatter. *)
Theorem backquote_in_description_fails (error : Type)
  (format_Source : string -> string + error)
  (Hraw : forall src, scanner.rawStringNotTerminated src = true ->
                      exists err, format_Source src = inr err) :
  (forall midl pkgname, exists before after,
      text (writeTemplate midl pkgname)
      = before ++ ("return `" ++ Description midl ++ NL ++ "`") ++ after)
  /\ exists midl err,
       Name midl <> ""
       /\ Str.Contains (Description midl) "`" = true
       /\ generate error format_Source midl = ("", None, Some err).
Proof.
  split; [apply description_verbatim|].
  destruct (Hraw (retString (pingDescribed "says `hi"))) as [err Herr];
    [vm_compute; reflexivity|].
  exists (pingDescribed "says `hi"), err.
  split; [discriminate|]. split; [vm_compute; reflexivity|].
  unfold generate. now rewrite Herr.
Qed.

Lemma formatRaw_rejects (src : string) :
  scanner.rawStringNotTerminated src = true -> exists err, formatRaw src = inr err.
Proof. intros H. unfold formatRaw. rewrite H. now eexists. Qed.

Lemma backquote_in_description_fails_witness :
  exists midl err,
    Name midl <> ""
    /\ Str.Contains (Description midl) "`" = true
    /\ generate string formatRaw midl = ("", None, Some err).
Proof.
  exact (proj2 (backquote_in_description_fails string formatRaw formatRaw_rejects)).
Defined.

(** ** Further properties of the type translator *)

(** The type translator never changes what the buffer holds when it is
    called: the buffer it returns is the buffer it was given followed by the
    rendering of the type. *)
Theorem writeType_keeps_buffer (t : Type_) (json : bool) (ident : nat) (b : Buffer) :
  writeType t json ident b = b ++ text (writeType t json ident)
  /\ String.length b <= String.length (writeType t json ident b).
Proof.
  pose proof (Appends_writeType t json ident b) as H.
  split; [exact H|]. rewrite H, StrFacts.length_app. lia.
Qed.

(** A type that holds no struct with fields is written in the same way in
    the wire-tagged and in the plain mode and at every indentation level. *)
Theorem writeType_oneLine_same (t : Type_) :
  oneLine t = true ->
  forall json1 ident1 json2 ident2 b,
    writeType t json1 ident1 b = writeType t json2 ident2 b.
Proof.
  induction t as [| | | | | |e IH|e IH|e IH|n|fs IH] using Type_nested_ind;
    intros H json1 ident1 json2 ident2 b; try reflexivity.
  - simpl in H. simpl. unfold andThen. now apply IH.
  - simpl in H. simpl. unfold andThen. now apply IH.
  - simpl in H. simpl. unfold andThen. now apply IH.
  - destruct fs as [|f fs]; [reflexivity | discriminate].
Qed.

Lemma writeType_oneLine_same_witness :
  writeType (Map (Array (Maybe (Struct [])))) true 0 "var x "
  = writeType (Map (Array (Maybe (Struct [])))) false 2 "var x ".
Proof.
  exact (writeType_oneLine_same (Map (Array (Maybe (Struct [])))) eq_refl
           true 0 false 2 "var x ").
Defined.

Lemma Contains_concatS_map {A : Type} (f : A -> string) (l : list A) (x : A) (sub : string) :
  List.In x l -> Str.Contains (f x) sub = true ->
  Str.Contains (concatS (map f l)) sub = true.
Proof.
  induction l as [|y l IH]; simpl; [tauto|].
  intros [-> | Hin] H.
  - now apply StrFacts.Contains_app_l.
  - apply StrFacts.Contains_app_r. now apply IH.
Qed.

Lemma Contains_refl_app (sub r : string) : Str.Contains (sub ++ r) sub = true.
Proof. apply StrFacts.Contains_iff. now exists "", r. Qed.

Lemma writeType_Object_RawMessage_aux (t : Type_) :
  hasObject t = true ->
  forall json ident,
    Str.Contains (text (writeType t json ident)) "json.RawMessage" = true.
Proof.
  induction t as [| | | | | |e IH|e IH|e IH|n|fs IH] using Type_nested_ind;
    intros H json ident; try discriminate.
  - reflexivity.
  - cbn [writeType]. rewrite text_writeType_elem.
    apply StrFacts.Contains_app_r. now apply IH.
  - cbn [writeType]. rewrite text_writeType_elem.
    apply StrFacts.Contains_app_r. now apply IH.
  - cbn [writeType]. rewrite text_writeType_elem.
    apply StrFacts.Contains_app_r. now apply IH.
  - destruct fs as [|f fs]; [discriminate|].
    rewrite text_writeType_Struct.
    cbn [hasObject] in H. apply existsb_exists in H as [x [Hx Hobj]].
    rewrite Forall_forall in IH.
    do 2 apply StrFacts.Contains_app_r. apply StrFacts.Contains_app_l.
    apply (Contains_concatS_map _ _ x); [exact Hx|].
    unfold fieldLine.
    do 3 apply StrFacts.Contains_app_r. apply StrFacts.Contains_app_l.
    now apply IH.
Qed.

(** A type that holds the Object kind, at any depth, is rendered with
    json.RawMessage in it, in both modes and at every indentation level:
    whatever the buffer holds, it holds json.RawMessage after the type was
    written to it. *)
Theorem writeType_Object_RawMessage (t : Type_)
  (Hobject : hasObject t = true) (json : bool) (ident : nat) (b : Buffer) :
  Str.Contains (text (writeType t json ident)) "json.RawMessage" = true
  /\ Str.Contains (writeType t json ident b) "json.RawMessage" = true.
Proof.
  pose proof (writeType_Object_RawMessage_aux t Hobject json ident) as H.
  split; [exact H|].
  rewrite (Appends_writeType t json ident b).
  now apply StrFacts.Contains_app_r.
Qed.

Lemma writeType_Object_RawMessage_witness :
  Str.Contains
    (writeType (Struct [mkTypeField "a" Int; mkTypeField "b" (Array (Maybe Object))])
               true 1 "var x ")
    "json.RawMessage" = true.
Proof.
  exact (proj2 (writeType_Object_RawMessage
                  (Struct [mkTypeField "a" Int; mkTypeField "b" (Array (Maybe Object))])
                  eq_refl true 1 "var x ")).
Defined.

(** ** Further properties of the names *)

(** [sanitizeGoName] returns the name or the name with an underscore, never
    a reserved word, and leaves what it returns unchanged when it is
    applied again. *)
Theorem sanitizeGoName_safe_idempotent (name : string) :
  isGoKeyword (sanitizeGoName name) = false
  /\ sanitizeGoName (sanitizeGoName name) = sanitizeGoName name
  /\ (sanitizeGoName name = name \/ sanitizeGoName name = name ++ "_").
Proof.
  pose proof (sanitizeGoName_not_keyword name) as H.
  split; [exact H|]. split.
  - unfold sanitizeGoName at 1. now rewrite H.
  - unfold sanitizeGoName. destruct (isGoKeyword name); simpl; auto.
Qed.

(** Two names are given the same identifier by [sanitizeGoName] exactly
    when they are the same name or one of them is a reserved word and the
    other one is this word with an underscore: the fields [type] and
    [type_] of one struct become the same parameter. *)
Theorem sanitizeGoName_collisions (n1 n2 : string) :
  sanitizeGoName n1 = sanitizeGoName n2
  <-> n1 = n2
      \/ (isGoKeyword n1 = true /\ n2 = n1 ++ "_")
      \/ (isGoKeyword n2 = true /\ n1 = n2 ++ "_").
Proof.
  split.
  - unfold sanitizeGoName.
    destruct (isGoKeyword n1) eqn:H1, (isGoKeyword n2) eqn:H2; simpl; intros H.
    + left. now apply StrFacts.app_inv_tail in H.
    + right. left. now split.
    + right. right. now split.
    + now left.
  - intros [-> | [[H1 ->] | [H2 ->]]]; [reflexivity| |].
    + pose proof (sanitizeGoName_not_keyword n1) as Hn.
      rewrite (sanitizeGoName_keyword n1 H1) in *.
      unfold sanitizeGoName. now rewrite Hn.
    + pose proof (sanitizeGoName_not_keyword n2) as Hn.
      rewrite (sanitizeGoName_keyword n2 H2) in *.
      unfold sanitizeGoName at 1. now rewrite Hn.
Qed.

Lemma RemoveByte_app (s t : string) (c : ascii) :
  Str.RemoveByte (s ++ t) c = Str.RemoveByte s c ++ Str.RemoveByte t c.
Proof.
  induction s as [|d s IH]; simpl; [reflexivity|].
  destruct (Ascii.eqb d c); simpl; now rewrite IH.
Qed.

Lemma RemoveByte_noByte (s : string) (c : ascii) :
  noByte c (Str.RemoveByte s c) = true.
Proof.
  induction s as [|d s IH]; simpl; [reflexivity|].
  destruct (Ascii.eqb d c) eqn:E; simpl; [exact IH|]. now rewrite E, IH.
Qed.

Lemma RemoveByte_length (s : string) (c : ascii) :
  String.length (Str.RemoveByte s c) <= String.length s.
Proof.
  induction s as [|d s IH]; simpl; [lia|].
  destruct (Ascii.eqb d c); simpl; lia.
Qed.

Lemma RemoveByte_absent (s : string) (c : ascii) :
  noByte c s = true -> Str.RemoveByte s c = s.
Proof.
  induction s as [|d s IH]; simpl; [reflexivity|].
  destruct (Ascii.eqb d c); simpl; [discriminate|]. intros H. now rewrite IH.
Qed.

(** The package name holds no dot, is not longer than the interface name,
    and is the segments of the interface name put together: two interface
    names that differ only in where their dots are have the same package
    name. *)
Theorem pkgname_without_dots (midl : IDL) :
  noByte "." (pkgnameOf midl) = true
  /\ String.length (pkgnameOf midl) <= String.length (Name midl)
  /\ Str.RemoveByte (pkgnameOf midl) "." = pkgnameOf midl
  /\ (forall s t, Str.RemoveByte (s ++ "." ++ t) "." = Str.RemoveByte (s ++ t) ".").
Proof.
  unfold pkgnameOf. split; [apply RemoveByte_noByte|].
  split; [apply RemoveByte_length|].
  split; [apply RemoveByte_absent, RemoveByte_noByte|].
  intros s t. rewrite !RemoveByte_app. reflexivity.
Qed.

(** ** The imports *)

Lemma noByte_app (c : ascii) (s t : string) :
  noByte c (s ++ t) = noByte c s && noByte c t.
Proof.
  induction s as [|d s IH]; simpl; [reflexivity|].
  now rewrite IH, andb_assoc.
Qed.

Lemma skipn_app (s t : string) : Str.skipn (String.length s) (s ++ t) = t.
Proof. induction s as [|c s IH]; simpl; [now destruct t | exact IH]. Qed.

(** The first occurrence is the one that follows a text without the first
    byte of what is looked for. *)
Lemma ReplaceFirst_at (p r new : string) :
  noByte "@" p = true ->
  Str.ReplaceFirst (p ++ "@IMPORTS@" ++ r) "@IMPORTS@" new = p ++ new ++ r.
Proof.
  induction p as [|d p IH]; intros H.
  - reflexivity.
  - simpl in H. apply andb_true_iff in H as [Hd Hp].
    change (Str.ReplaceFirst (String d p ++ "@IMPORTS@" ++ r) "@IMPORTS@" new)
      with (if Str.HasPrefix (String d (p ++ "@IMPORTS@" ++ r)) "@IMPORTS@"
            then new ++ Str.skipn (String.length "@IMPORTS@") (String d (p ++ "@IMPORTS@" ++ r))
            else String d (Str.ReplaceFirst (p ++ "@IMPORTS@" ++ r) "@IMPORTS@" new)).
    cbn [Str.HasPrefix]. apply negb_true_iff in Hd. rewrite Hd. cbn [andb].
    now rewrite (IH Hp).
Qed.

Lemma Contains_cons (c : ascii) (s sub : string) :
  Str.Contains s sub = true -> Str.Contains (String c s) sub = true.
Proof. intros H. cbn [Str.Contains]. rewrite H. apply orb_true_r. Qed.

Lemma ReplaceFirst_Contains (s old new : string) :
  Str.Contains s old = true -> Str.Contains (Str.ReplaceFirst s old new) new = true.
Proof.
  induction s as [|c s IH]; intros H.
  - cbn [Str.Contains] in H. rewrite orb_false_r in H.
    cbn [Str.ReplaceFirst]. rewrite H. apply Contains_refl_app.
  - cbn [Str.Contains] in H. cbn [Str.ReplaceFirst].
    destruct (Str.HasPrefix (String c s) old).
    + apply Contains_refl_app.
    + simpl in H. apply Contains_cons. now apply IH.
Qed.

Lemma text_writeTemplate_header (midl : IDL) (pkgname : string) :
  exists rest,
    text (writeTemplate midl pkgname) = headerText pkgname ++ "@IMPORTS@" ++ rest.
Proof.
  unfold writeTemplate. rewrite text_andThen by appends.
  match goal with |- context [text (writeHeader _) ++ ?r] => exists (NL ++ NL ++ r) end.
  unfold writeHeader. rewrite !text_andThen by appends.
  rewrite !text_WriteString. unfold headerText.
  rewrite !StrFacts.app_assoc. reflexivity.
Qed.

(** When the package name holds no at sign, the text handed to the
    formatter is the text of the buffer with the placeholder that follows
    the package clause replaced by the imports: the varlink package alone,
    or with encoding/json when the text of the buffer holds
    json.RawMessage somewhere.  Nothing else of the text is changed. *)
Theorem retString_replaces_placeholder (midl : IDL)
  (Hat : noByte "@" (pkgnameOf midl) = true) :
  exists rest,
    text (writeTemplate midl (pkgnameOf midl))
    = headerText (pkgnameOf midl) ++ "@IMPORTS@" ++ rest
    /\ retString midl
       = headerText (pkgnameOf midl)
         ++ (if Str.Contains (text (writeTemplate midl (pkgnameOf midl))) "json.RawMessage"
             then importsBoth else importsVarlink)
         ++ rest.
Proof.
  destruct (text_writeTemplate_header midl (pkgnameOf midl)) as [rest E].
  exists rest. split; [exact E|].
  unfold retString. cbv zeta.
  assert (Hh : noByte "@" (headerText (pkgnameOf midl)) = true).
  { unfold headerText. rewrite !noByte_app, Hat. reflexivity. }
  destruct (Str.Contains (text (writeTemplate midl (pkgnameOf midl))) "json.RawMessage");
    rewrite E; now apply ReplaceFirst_at.
Qed.

Lemma retString_replaces_placeholder_witness :
  noByte "@" (pkgnameOf (pingDescribed "ping")) = true
  /\ Str.HasPrefix (retString (pingDescribed "ping"))
       (headerText "orgexampleping" ++ importsVarlink ++ NL ++ NL ++ "// Type declarations")
     = true.
Proof.
  split; [reflexivity|].
  destruct (retString_replaces_placeholder (pingDescribed "ping") eq_refl) as [rest [_ E]].
  vm_compute. reflexivity.
Defined.

Lemma Contains_RawMessage_writeType (t : Type_) (json : bool) (ident : nat) :
  hasObject t = true ->
  Str.Contains (text (writeType t json ident)) "json.RawMessage" = true.
Proof. intros H. now apply writeType_Object_RawMessage_aux. Qed.

Lemma Kind_Struct (t : Type_) : isStruct t = true -> exists fs, t = Struct fs.
Proof. destruct t; try discriminate. intros _. now eexists. Qed.

Lemma hasObject_Struct_nonEmpty (fs : list TypeField) :
  hasObject (Struct fs) = true -> nonEmpty fs = true.
Proof. destruct fs; [discriminate | reflexivity]. Qed.

Lemma Contains_RawMessage_writeAlias (a : Alias) :
  hasObject (aType a) = true ->
  Str.Contains (text (writeAlias a)) "json.RawMessage" = true.
Proof.
  intros H. unfold writeAlias. rewrite !text_andThen by appends.
  apply StrFacts.Contains_app_r, StrFacts.Contains_app_l.
  now apply Contains_RawMessage_writeType.
Qed.

Lemma Contains_RawMessage_writeCall (midl : IDL) (m : Method) :
  isStruct (In m) = true -> hasObject (In m) = true ->
  Str.Contains (text (writeCall midl m)) "json.RawMessage" = true.
Proof.
  intros Hs Ho. unfold writeCall.
  destruct (Kind_Struct _ Hs) as [fs E].
  pose proof Ho as Hne. rewrite E in Hne. apply hasObject_Struct_nonEmpty in Hne.
  replace (Fields (In m)) with fs by now rewrite E.
  rewrite Hne. rewrite !text_andThen by appends.
  do 4 apply StrFacts.Contains_app_r. apply StrFacts.Contains_app_l.
  now apply Contains_RawMessage_writeType.
Qed.

Lemma Contains_RawMessage_writeRead (m : Method) :
  isStruct (Out m) = true -> hasObject (Out m) = true ->
  Str.Contains (text (writeRead m)) "json.RawMessage" = true.
Proof.
  intros Hs Ho. unfold writeRead.
  destruct (Kind_Struct _ Hs) as [fs E].
  pose proof Ho as Hne. rewrite E in Hne. apply hasObject_Struct_nonEmpty in Hne.
  replace (Fields (Out m)) with fs by now rewrite E.
  rewrite Hne. rewrite !text_andThen by appends.
  do 3 apply StrFacts.Contains_app_r. apply StrFacts.Contains_app_l.
  apply StrFacts.Contains_app_r, StrFacts.Contains_app_l.
  now apply Contains_RawMessage_writeType.
Qed.

Lemma Contains_RawMessage_writeReplyError (midl : IDL) (e : Error) :
  isStruct (eType e) = true -> hasObject (eType e) = true ->
  Str.Contains (text (writeReplyError midl e)) "json.RawMessage" = true.
Proof.
  intros Hs Ho. unfold writeReplyError.
  destruct (Kind_Struct _ Hs) as [fs E].
  pose proof Ho as Hne. rewrite E in Hne. apply hasObject_Struct_nonEmpty in Hne.
  replace (Fields (eType e)) with fs by now rewrite E.
  rewrite Hne. rewrite !text_andThen by appends.
  do 3 apply StrFacts.Contains_app_r. apply StrFacts.Contains_app_l.
  apply StrFacts.Contains_app_r, StrFacts.Contains_app_l.
  now apply Contains_RawMessage_writeType.
Qed.

Lemma Contains_RawMessage_writeTemplate (midl : IDL) (pkgname : string) :
  structured midl = true -> usesObject midl = true ->
  Str.Contains (text (writeTemplate midl pkgname)) "json.RawMessage" = true.
Proof.
  unfold structured, usesObject. intros Hs Ho.
  apply andb_true_iff in Hs as [Hm He].
  rewrite forallb_forall in Hm, He.
  unfold writeTemplate. rewrite !text_andThen by appends.
  rewrite !text_forRange by (intros; appends).
  apply orb_true_iff in Ho as [Ho | Ho]; [apply orb_true_iff in Ho as [Ho | Ho]|].
  - apply existsb_exists in Ho as [a [Ha Ho]].
    do 2 apply StrFacts.Contains_app_r. apply StrFacts.Contains_app_l.
    apply (Contains_concatS_map _ _ a); [exact Ha|].
    now apply Contains_RawMessage_writeAlias.
  - apply existsb_exists in Ho as [m [Hin Ho]].
    specialize (Hm m Hin). apply andb_true_iff in Hm as [Hi Hout].
    do 4 apply StrFacts.Contains_app_r. apply StrFacts.Contains_app_l.
    apply (Contains_concatS_map _ _ m); [exact Hin|].
    rewrite text_andThen by appends.
    apply orb_true_iff in Ho as [Ho | Ho].
    + apply StrFacts.Contains_app_l. now apply Contains_RawMessage_writeCall.
    + apply StrFacts.Contains_app_r. now apply Contains_RawMessage_writeRead.
  - apply existsb_exists in Ho as [e [Hin Ho]].
    specialize (He e Hin).
    do 12 apply StrFacts.Contains_app_r. apply StrFacts.Contains_app_l.
    apply (Contains_concatS_map _ _ e); [exact Hin|].
    now apply Contains_RawMessage_writeReplyError.
Qed.

(** When the inputs and outputs of the methods and the types of the errors
    are structs and some type of the model holds the Object kind, the text
    handed to the formatter imports encoding/json beside the varlink
    package. *)
Theorem Object_gets_json_import (midl : IDL)
  (Hstruct : structured midl = true) (Hobject : usesObject midl = true) :
  Str.Contains (retString midl) importsBoth = true.
Proof.
  unfold retString. cbv zeta.
  rewrite (Contains_RawMessage_writeTemplate midl _ Hstruct Hobject).
  apply ReplaceFirst_Contains.
  destruct (text_writeTemplate_header midl (pkgnameOf midl)) as [rest E].
  rewrite E. apply StrFacts.Contains_app_r, Contains_refl_app.
Qed.

Lemma Object_gets_json_import_witness :
  Str.Contains
    (retString (mkIDL "org.example.raw" "interface org.example.raw" []
                  [mkMethod "Put" (Struct [mkTypeField "value" Object]) (Struct [])] []))
    importsBoth = true.
Proof.
  exact (Object_gets_json_import
           (mkIDL "org.example.raw" "interface org.example.raw" []
              [mkMethod "Put" (Struct [mkTypeField "value" Object]) (Struct [])] [])
           eq_refl eq_refl).
Defined.

(** ** Further properties of the emitter *)

Lemma text_forRangeFrom_replyParam (fs : list TypeField) (i : nat) :
  text (forRangeFrom replyParam (S i) fs)
  = concatS (map (fun field => ", " ++ sanitizeGoName (fName field) ++ " "
                               ++ text (writeType (fType field) false 1)) fs).
Proof.
  revert i. induction fs as [|f fs IH]; intros i; [reflexivity|].
  cbn [forRangeFrom map concatS].
  rewrite text_andThen by (apply Appends_forRangeFrom; intros; appends).
  rewrite IH. f_equal. unfold replyParam. cbn [Nat.ltb Nat.leb].
  rewrite !text_andThen by appends.
  rewrite !text_WriteString, ?StrFacts.app_assoc. reflexivity.
Qed.

Lemma join_cons (sep s : string) (l : list string) :
  join sep (s :: l) = s ++ concatS (map (fun x => sep ++ x) l).
Proof.
  revert s. induction l as [|x l IH]; intros s.
  - simpl. now rewrite StrFacts.app_nil_r.
  - change (join sep (s :: x :: l)) with (s ++ sep ++ join sep (x :: l)).
    rewrite IH. cbn [map concatS]. now rewrite StrFacts.app_assoc.
Qed.

(** The parameters of a reply method are the fields in their order, each
    with its local identifier and its plain type, separated by commas:
    there is no comma before the first one and none after the last one. *)
Theorem reply_parameters_comma_separated (fs : list TypeField) :
  text (forRangeIndex fs replyParam)
  = join ", " (map (fun field => sanitizeGoName (fName field) ++ " "
                                 ++ text (writeType (fType field) false 1)) fs).
Proof.
  destruct fs as [|f fs]; [reflexivity|].
  unfold forRangeIndex. cbn [forRangeFrom map].
  rewrite text_andThen by (apply Appends_forRangeFrom; intros; appends).
  rewrite text_forRangeFrom_replyParam, join_cons, map_map.
  f_equal. unfold replyParam. cbn [Nat.ltb Nat.leb].
  rewrite !text_andThen by appends.
  rewrite text_skip, !text_WriteString, ?StrFacts.app_assoc. reflexivity.
Qed.

(** An error without fields is replied with nil as its payload, under the
    name of the interface followed by a dot and the name of the error. *)
Theorem error_without_fields_nil_payload (midl : IDL) (e : Error)
  (Hempty : Fields (eType e) = []) :
  text (writeReplyError midl e)
  = "func (c *VarlinkCall) Reply" ++ eName e ++ "() error {" ++ NL
    ++ TAB ++ "return c.ReplyError(" ++ DQ ++ Name midl ++ "." ++ eName e ++ DQ
    ++ ", nil)" ++ NL
    ++ "}" ++ NL ++ NL.
Proof.
  unfold writeReplyError. rewrite Hempty.
  unfold forRangeIndex. cbn [forRangeFrom nonEmpty List.length Nat.ltb Nat.leb].
  text_norm; repeat (rewrite ?StrFacts.app_assoc; cbn; f_equal).
Qed.

Lemma error_without_fields_nil_payload_witness :
  text (writeReplyError (pingDescribed "ping") (mkError "NotFound" (Struct [])))
  = "func (c *VarlinkCall) ReplyNotFound() error {" ++ NL
    ++ TAB ++ "return c.ReplyError(" ++ DQ ++ "org.example.ping.NotFound" ++ DQ
    ++ ", nil)" ++ NL
    ++ "}" ++ NL ++ NL.
Proof.
  exact (error_without_fields_nil_payload (pingDescribed "ping")
           (mkError "NotFound" (Struct [])) eq_refl).
Defined.

(** A method without output fields is read with nil as the destination of
    [c.Receive], and replied with nil as the payload of [c.Reply]; its
    reader takes the connection alone and its reply method no parameter. *)
Theorem method_without_output_nil (m : Method)
  (Hempty : Fields (Out m) = []) :
  text (writeRead m)
  = "func Read" ++ mName m ++ "_(c *varlink.Connection) (bool, error) {" ++ NL
    ++ TAB ++ "continues_, err := c.Receive(nil)" ++ NL
    ++ TAB ++ "if err != nil {" ++ NL
    ++ TAB ++ TAB ++ "return false, err" ++ NL
    ++ TAB ++ "}" ++ NL
    ++ TAB ++ "return continues_, nil" ++ NL
    ++ "}" ++ NL ++ NL
  /\ text (writeReply m)
     = "func (c *VarlinkCall) Reply" ++ mName m ++ "() error {" ++ NL
       ++ TAB ++ "return c.Reply(nil)" ++ NL
       ++ "}" ++ NL ++ NL.
Proof.
  unfold writeRead, writeReply. rewrite Hempty.
  unfold forRangeIndex. cbn [forRange forRangeFrom nonEmpty List.length Nat.ltb Nat.leb].
  split; text_norm; repeat (rewrite ?StrFacts.app_assoc; cbn; f_equal).
Qed.

Lemma method_without_output_nil_witness :
  Str.Contains (text (writeRead (mkMethod "Ping" (Struct []) (Struct []))))
               "c.Receive(nil)" = true.
Proof.
  rewrite (proj1 (method_without_output_nil (mkMethod "Ping" (Struct []) (Struct []))
                    eq_refl)).
  vm_compute. reflexivity.
Defined.

Lemma Contains_here (s sub r : string) : s = sub ++ r -> Str.Contains s sub = true.
Proof. intros ->. apply Contains_refl_app. Qed.

(** On the wire a method and an error are named by the name of the
    interface as it is declared, a dot and their own name, whether they have
    fields or not; the dummy implementation of a method replies
    method-not-implemented with the bare name of the method. *)
Theorem wire_names_are_qualified (midl : IDL) (m : Method) (e : Error) :
  Str.Contains (text (writeCall midl m))
    ("return c_.Send(" ++ DQ ++ Name midl ++ "." ++ mName m ++ DQ ++ ", ") = true
  /\ Str.Contains (text (writeReplyError midl e))
       ("return c.ReplyError(" ++ DQ ++ Name midl ++ "." ++ eName e ++ DQ ++ ", ") = true
  /\ Str.Contains (text (writeDummy m))
       ("return c.ReplyMethodNotImplemented(" ++ DQ ++ mName m ++ DQ ++ ")") = true.
Proof.
  split; [|split].
  - unfold writeCall. destruct (nonEmpty (Fields (In m)));
      rewrite !text_andThen by appends; rewrite !text_WriteString.
    + do 8 apply StrFacts.Contains_app_r.
      eapply Contains_here. rewrite !StrFacts.app_assoc. reflexivity.
    + do 4 apply StrFacts.Contains_app_r.
      eapply Contains_here. rewrite !StrFacts.app_assoc. reflexivity.
  - unfold writeReplyError. destruct (nonEmpty (Fields (eType e)));
      rewrite !text_andThen by appends; rewrite !text_WriteString.
    + do 3 apply StrFacts.Contains_app_r. apply StrFacts.Contains_app_l.
      do 5 apply StrFacts.Contains_app_r.
      eapply Contains_here. rewrite !StrFacts.app_assoc. reflexivity.
    + do 3 apply StrFacts.Contains_app_r. apply StrFacts.Contains_app_l.
      apply StrFacts.Contains_app_r.
      eapply Contains_here. rewrite !StrFacts.app_assoc. reflexivity.
  - unfold writeDummy. rewrite !text_andThen by appends. rewrite !text_WriteString.
    do 5 apply StrFacts.Contains_app_r.
    eapply Contains_here. rewrite !StrFacts.app_assoc. reflexivity.
Qed.

(** The text of the buffer is made of these sections, in this order: the
    header with the placeholder of the imports, the type declarations, the
    client functions, the service interface, the call wrapper, the reply
    methods of the errors and of the methods, the dummy methods, the
    dispatcher with its head, its branches and its default branch, the two
    accessors, the adapter type and its constructor.  The aliases, the
    methods and the errors are written in their declared order in every
    section, the branches of the dispatcher included. *)
Theorem writeTemplate_sections (midl : IDL) (pkgname : string) :
  text (writeTemplate midl pkgname)
  = headerText pkgname ++ "@IMPORTS@" ++ NL ++ NL
    ++ "// Type declarations" ++ NL
    ++ concatS (map (fun a => text (writeAlias a)) (Aliases midl))
    ++ "// Client method calls and reply readers" ++ NL
    ++ concatS (map (fun m => text (writeCall midl m) ++ text (writeRead m)) (Methods midl))
    ++ "// Service interface with all methods" ++ NL
    ++ "type " ++ pkgname ++ "Interface interface {" ++ NL
    ++ concatS (map (fun m => text (writeInterfaceMethod m)) (Methods midl))
    ++ "}" ++ NL ++ NL
    ++ "// Service object with all methods" ++ NL
    ++ "type VarlinkCall struct{ varlink.Call }" ++ NL ++ NL
    ++ "// Reply methods for all varlink errors" ++ NL
    ++ concatS (map (fun e => text (writeReplyError midl e)) (Errors midl))
    ++ "// Reply methods for all varlink methods" ++ NL
    ++ concatS (map (fun m => text (writeReply m)) (Methods midl))
    ++ "// Dummy methods for all varlink methods" ++ NL
    ++ concatS (map (fun m => text (writeDummy m)) (Methods midl))
    ++ "// Method call dispatcher" ++ NL
    ++ "func (s *VarlinkInterface) VarlinkDispatch(call varlink.Call, methodname string) error {" ++ NL
    ++ TAB ++ "switch methodname {" ++ NL
    ++ concatS (map (fun m => text (writeDispatchCase pkgname m)) (Methods midl))
    ++ TAB ++ "default:" ++ NL
    ++ TAB ++ TAB ++ "return call.ReplyMethodNotFound(methodname)" ++ NL
    ++ TAB ++ "}" ++ NL
    ++ "}" ++ NL ++ NL
    ++ "// Varlink interface name" ++ NL
    ++ "func (s *VarlinkInterface) VarlinkGetName() string {" ++ NL
    ++ TAB ++ "return `" ++ Name midl ++ "`" ++ NL
    ++ "}" ++ NL ++ NL
    ++ "// Varlink interface description" ++ NL
    ++ "func (s *VarlinkInterface) VarlinkGetDescription() string {" ++ NL
    ++ TAB ++ "return `" ++ Description midl ++ NL ++ "`" ++ NL
    ++ "}" ++ NL ++ NL
    ++ "// Service interface" ++ NL
    ++ "type VarlinkInterface struct {" ++ NL
    ++ TAB ++ pkgname ++ "Interface" ++ NL
    ++ "}" ++ NL ++ NL
    ++ "func VarlinkNew(m " ++ pkgname ++ "Interface) *VarlinkInterface {" ++ NL
    ++ TAB ++ "return &VarlinkInterface{m}" ++ NL
    ++ "}" ++ NL.
Proof.
  unfold writeTemplate, writeHeader, writeGetDescription, writeDispatcher,
    dispatchHead, dispatchDefault, headerText.
  rewrite !text_andThen by appends.
  rewrite !text_forRange by (intros; appends).
  rewrite (map_ext (fun m => text (writeCall midl m ;; writeRead m))
                   (fun m => text (writeCall midl m) ++ text (writeRead m)))
    by (intros m; apply text_andThen; appends).
  rewrite !text_WriteString, !StrFacts.app_assoc. reflexivity.
Qed.

(** ** Further properties of [generateTemplate] *)

Lemma TrimRight_app_NL (s : string) :
  Str.TrimRight (s ++ NL) "010" = Str.TrimRight s "010".
Proof.
  induction s as [|c s IH]; [reflexivity|].
  change (String c s ++ NL) with (String c (s ++ NL)).
  cbn [Str.TrimRight]. now rewrite IH.
Qed.

Lemma TrimRight_not_NL (s r : string) : Str.TrimRight s "010" <> r ++ NL.
Proof.
  revert r. induction s as [|c s IH]; intros r H.
  - destruct r; discriminate.
  - cbn [Str.TrimRight] in H.
    destruct (Str.TrimRight s "010") as [|d t] eqn:E.
    + destruct (Ascii.eqb c "010") eqn:Ec.
      * destruct r; discriminate.
      * destruct r as [|c' r]; [|destruct r; discriminate].
        unfold NL in H. simpl in H. injection H as ->. discriminate.
    + destruct r as [|c' r]; [discriminate|].
      simpl in H. injection H as -> H. now apply (IH r).
Qed.

(** The newlines at the end of a description do not count: the parser is
    never given a text that ends with a newline, and a description followed
    by one more newline gives the result of the description. *)
Theorem generateTemplate_ignores_final_newlines (error : Type)
  (idl_New : string -> IDL + error) (format_Source : string -> string + error)
  (description : string) :
  generateTemplate error idl_New format_Source (description ++ NL)
  = generateTemplate error idl_New format_Source description
  /\ (forall r, Str.TrimRight description "010" <> r ++ NL)
  /\ Str.TrimRight (Str.TrimRight description "010") "010"
     = Str.TrimRight description "010".
Proof.
  split; [unfold generateTemplate; now rewrite TrimRight_app_NL|].
  split; [intros r; apply TrimRight_not_NL|].
  induction description as [|c s IH]; [reflexivity|].
  cbn [Str.TrimRight].
  destruct (Str.TrimRight s "010") as [|d t] eqn:E.
  - destruct (Ascii.eqb c "010") eqn:Ec; [reflexivity|].
    cbn [Str.TrimRight]. now rewrite Ec.
  - change (Str.TrimRight (String c (String d t)) "010")
      with (match Str.TrimRight (String d t) "010" with
            | EmptyString => if Ascii.eqb c "010" then EmptyString else String c EmptyString
            | r => String c r
            end).
    now rewrite IH.
Qed.

(** ** The plain mode writes no tag *)

Lemma ToTitle_backquote (r : ascii) :
  Ascii.eqb (strings.ToTitle r) "`" = Ascii.eqb r "`".
Proof. destruct r as [[] [] [] [] [] [] [] []]; reflexivity. Qed.

Lemma noByte_TitleFrom (prev : ascii) (s : string) :
  noByte "`" (strings.TitleFrom prev s) = noByte "`" s.
Proof.
  revert prev. induction s as [|r s IH]; intros prev; [reflexivity|].
  cbn [strings.TitleFrom noByte]. rewrite IH.
  destruct (strings.isSeparator prev); [|reflexivity].
  now rewrite ToTitle_backquote.
Qed.

Lemma noByte_indent (n : nat) : noByte "`" (indent n) = true.
Proof. induction n as [|n IH]; [reflexivity | exact IH]. Qed.

Lemma noByte_concatS_map {A : Type} (f : A -> string) (l : list A) (c : ascii) :
  Forall (fun x => noByte c (f x) = true) l -> noByte c (concatS (map f l)) = true.
Proof.
  induction 1 as [|x l Hx _ IH]; [reflexivity|].
  cbn [map concatS]. now rewrite noByte_app, Hx, IH.
Qed.

Lemma noByte_plain (t : Type_) :
  noByteInNames "`" t = true ->
  forall ident, noByte "`" (text (writeType t false ident)) = true.
Proof.
  induction t as [| | | | | |e IH|e IH|e IH|n|fs IH] using Type_nested_ind;
    intros H ident; try reflexivity.
  - cbn [writeType]. rewrite text_writeType_elem. now apply IH.
  - cbn [writeType]. rewrite text_writeType_elem. now apply IH.
  - cbn [writeType]. rewrite text_writeType_elem. now apply IH.
  - exact H.
  - destruct fs as [|f fs]; [reflexivity|].
    rewrite text_writeType_Struct, !noByte_app, noByte_indent.
    cbn [noByteInNames] in H. rewrite forallb_forall in H.
    rewrite Forall_forall in IH.
    rewrite noByte_concatS_map; [reflexivity|].
    apply Forall_forall. intros x Hx.
    specialize (H x Hx). apply andb_true_iff in H as [Hn Ht].
    unfold fieldLine. rewrite !noByte_app, noByte_indent.
    unfold strings.Title. rewrite noByte_TitleFrom, Hn.
    now rewrite (IH x Hx Ht).
Qed.

(** When no name in a type holds a backquote, the plain rendering of the
    type holds none: the plain mode writes no wire tag, at any depth;
    whereas the wire-tagged rendering of a struct with a field always holds
    one. *)
Theorem plain_mode_writes_no_tag (t : Type_) (ident : nat)
  (Hnames : noByteInNames "`" t = true) :
  noByte "`" (text (writeType t false ident)) = true
  /\ (forall f fs ident',
        noByte "`" (text (writeType (Struct (f :: fs)) true ident')) = false).
Proof.
  split; [now apply noByte_plain|].
  intros f fs ident'. rewrite text_writeType_Struct.
  cbn [map concatS]. unfold fieldLine at 1, wireTag.
  rewrite !noByte_app. cbn [noByte Ascii.eqb Bool.eqb negb andb].
  now rewrite !andb_false_r.
Qed.

Lemma plain_mode_writes_no_tag_witness :
  noByteInNames "`" (Array (Struct [mkTypeField "a" (Maybe Int); mkTypeField "b" (Alias_ "T")]))
  = true
  /\ noByte "`"
       (text (writeType
                (Array (Struct [mkTypeField "a" (Maybe Int); mkTypeField "b" (Alias_ "T")]))
                false 1)) = true.
Proof.
  split; [reflexivity|].
  exact (proj1 (plain_mode_writes_no_tag
                  (Array (Struct [mkTypeField "a" (Maybe Int); mkTypeField "b" (Alias_ "T")]))
                  1 eq_refl)).
Defined.

(** ** Member names *)

Lemma isGoKeyword_upper (C : ascii) (rest : string) :
  strings.inRange "A" "Z" C = true -> isGoKeyword (String C rest) = false.
Proof.
  intros H. unfold isGoKeyword, goKeywords. cbn [existsb String.eqb].
  destruct C as [[] [] [] [] [] [] [] []]; try discriminate H; reflexivity.
Qed.

Lemma ToTitle_upper (c : ascii) :
  strings.inRange "a" "z" c || strings.inRange "A" "Z" c = true ->
  strings.inRange "A" "Z" (strings.ToTitle c) = true.
Proof. destruct c as [[] [] [] [] [] [] [] []]; intros H; try discriminate H; reflexivity. Qed.

(** The member of a struct written for a field whose name starts with an
    ASCII letter starts with an upper case letter, the rest of the name
    following as [strings.Title] leaves it, and is not a reserved word:
    members need no underscore. *)
Theorem member_name_exported_not_reserved (c : ascii) (rest : string)
  (Hletter : strings.inRange "a" "z" c || strings.inRange "A" "Z" c = true) :
  strings.Title (String c rest) = String (strings.ToTitle c) (strings.TitleFrom c rest)
  /\ strings.inRange "A" "Z" (strings.ToTitle c) = true
  /\ isGoKeyword (strings.Title (String c rest)) = false.
Proof.
  assert (E : strings.Title (String c rest)
              = String (strings.ToTitle c) (strings.TitleFrom c rest)) by reflexivity.
  split; [exact E|]. split; [now apply ToTitle_upper|].
  rewrite E. apply isGoKeyword_upper. now apply ToTitle_upper.
Qed.

Lemma member_name_exported_not_reserved_witness :
  isGoKeyword "type" = true
  /\ strings.Title "type" = "Type"
  /\ isGoKeyword (strings.Title "type") = false.
Proof.
  split; [reflexivity|]. split; [reflexivity|].
  exact (proj2 (proj2 (member_name_exported_not_reserved "t" "ype" eq_refl))).
Defined.

(** ** Reserved words at every place a field is written *)

Lemma sanitizeGoName_localIdent (field : TypeField) :
  sanitizeGoName (fName field) = localIdent field.
Proof.
  unfold sanitizeGoName, localIdent. now destruct (isGoKeyword (fName field)).
Qed.

Lemma text_callParam (field : TypeField) :
  text (callParam field) = ", " ++ localIdent field ++ " " ++ plainType 1 field.
Proof.
  unfold callParam, plainType. rewrite sanitizeGoName_localIdent.
  rewrite text_andThen by appends. now rewrite text_WriteString, !StrFacts.app_assoc.
Qed.

Lemma text_interfaceParam (field : TypeField) :
  text (interfaceParam field) = ", " ++ localIdent field ++ " " ++ plainType 1 field.
Proof.
  unfold interfaceParam, plainType. rewrite sanitizeGoName_localIdent.
  rewrite text_andThen by appends. now rewrite text_WriteString, !StrFacts.app_assoc.
Qed.

Lemma text_dummyParam (field : TypeField) :
  text (dummyParam field) = ", " ++ localIdent field ++ " " ++ plainType 1 field.
Proof.
  unfold dummyParam, plainType. rewrite sanitizeGoName_localIdent.
  rewrite text_andThen by appends. now rewrite text_WriteString, !StrFacts.app_assoc.
Qed.

Lemma text_readParam (field : TypeField) :
  text (readParam field) = ", " ++ localIdent field ++ " *" ++ plainType 1 field.
Proof.
  unfold readParam, plainType. rewrite sanitizeGoName_localIdent.
  rewrite text_andThen by appends. now rewrite text_WriteString, !StrFacts.app_assoc.
Qed.

Lemma text_callAssign (field : TypeField) :
  text (callAssign field)
  = if converted field
    then TAB ++ "in." ++ member field ++ " = " ++ wireType 1 field
         ++ "(" ++ localIdent field ++ ")" ++ NL
    else TAB ++ "in." ++ member field ++ " = " ++ localIdent field ++ NL.
Proof.
  unfold callAssign, converted, wireType, member. rewrite sanitizeGoName_localIdent.
  destruct (isStructArrayMap (Kind (fType field))); [|reflexivity].
  rewrite !text_andThen by appends.
  now rewrite !text_WriteString, !StrFacts.app_assoc.
Qed.

Lemma text_replyAssign (field : TypeField) :
  text (replyAssign field)
  = if converted field
    then TAB ++ "out." ++ member field ++ " = " ++ wireType 1 field
         ++ "(" ++ localIdent field ++ ")" ++ NL
    else TAB ++ "out." ++ member field ++ " = " ++ localIdent field ++ NL.
Proof.
  unfold replyAssign, converted, wireType, member. rewrite sanitizeGoName_localIdent.
  destruct (isStructArrayMap (Kind (fType field))); [|reflexivity].
  rewrite !text_andThen by appends.
  now rewrite !text_WriteString, !StrFacts.app_assoc.
Qed.

Lemma text_readAssign (field : TypeField) :
  text (readAssign field)
  = TAB ++ "if " ++ localIdent field ++ " != nil {" ++ NL
    ++ (if converted field
        then TAB ++ TAB ++ "*" ++ localIdent field ++ " = " ++ plainType 2 field
             ++ " (out." ++ member field ++ ")" ++ NL
        else TAB ++ TAB ++ "*" ++ localIdent field ++ " = out." ++ member field ++ NL)
    ++ TAB ++ "}" ++ NL.
Proof.
  unfold readAssign, converted, plainType, member. rewrite sanitizeGoName_localIdent.
  destruct (isStructArrayMap (Kind (fType field)));
    rewrite !text_andThen by appends;
    now rewrite !text_WriteString, !StrFacts.app_assoc.
Qed.

Lemma text_replyParams_from (fs : list TypeField) (i : nat) :
  text (forRangeFrom replyParam (S i) fs)
  = concatS (map (fun field => ", " ++ localIdent field ++ " " ++ plainType 1 field) fs).
Proof.
  revert i. induction fs as [|f fs IH]; intros i; [reflexivity|].
  cbn [forRangeFrom map concatS].
  rewrite text_andThen by (apply Appends_forRangeFrom; intros; appends).
  rewrite IH. f_equal. unfold replyParam, plainType. cbn [Nat.ltb Nat.leb].
  rewrite sanitizeGoName_localIdent.
  rewrite !text_andThen by appends.
  rewrite !text_WriteString, ?StrFacts.app_assoc. reflexivity.
Qed.

Lemma text_replyParams (fs : list TypeField) :
  text (forRangeIndex fs replyParam)
  = join ", " (map (fun field => localIdent field ++ " " ++ plainType 1 field) fs).
Proof.
  destruct fs as [|f fs]; [reflexivity|].
  unfold forRangeIndex. cbn [forRangeFrom map].
  rewrite text_andThen by (apply Appends_forRangeFrom; intros; appends).
  rewrite text_replyParams_from, join_cons, map_map.
  f_equal. unfold replyParam, plainType. cbn [Nat.ltb Nat.leb].
  rewrite sanitizeGoName_localIdent.
  rewrite !text_andThen by appends.
  rewrite text_skip, !text_WriteString, ?StrFacts.app_assoc. reflexivity.
Qed.

(** Rewrites the text of an emitter into the texts of its pieces. *)
Ltac emitter_text :=
  rewrite !text_andThen by appends;
  rewrite ?text_forRange by (intros; appends);
  rewrite ?text_replyParams;
  rewrite ?(map_ext _ _ text_callParam), ?(map_ext _ _ text_callAssign),
    ?(map_ext _ _ text_readParam), ?(map_ext _ _ text_readAssign),
    ?(map_ext _ _ text_interfaceParam), ?(map_ext _ _ text_replyAssign),
    ?(map_ext _ _ text_dummyParam);
  rewrite !text_WriteString, !StrFacts.app_assoc; reflexivity.

(** C3. Every function generated for a method or an error writes a field,
    wherever the field is a parameter or is read or assigned as a local, by
    its local identifier: the name of the field, followed by an underscore
    when the name is a reserved word, which makes it an identifier that is
    not reserved.  This is so in the client call function, the reply reader,
    the service interface, the reply methods of the errors and of the
    methods and the dummy methods, whose whole texts are given.  The wire
    tag of a field in a wire-tagged struct holds the name as it is. *)
Theorem reserved_name_suffixed_locally_kept_on_wire (midl : IDL) (m : Method) (e : Error) :
  let param := fun field => ", " ++ localIdent field ++ " " ++ plainType 1 field in
  let replyParams := fun fs =>
    join ", " (map (fun field => localIdent field ++ " " ++ plainType 1 field) fs) in
  let assign := fun target field =>
    if converted field
    then TAB ++ target ++ "." ++ member field ++ " = " ++ wireType 1 field
         ++ "(" ++ localIdent field ++ ")" ++ NL
    else TAB ++ target ++ "." ++ member field ++ " = " ++ localIdent field ++ NL in
  (forall field, isGoKeyword (fName field) = true ->
     localIdent field = fName field ++ "_" /\ isGoKeyword (localIdent field) = false)
  /\ text (writeCall midl m)
     = "func " ++ mName m ++ "(c_ *varlink.Connection, more_ bool, oneway_ bool"
       ++ concatS (map param (Fields (In m)))
       ++ ") error {" ++ NL
       ++ (if nonEmpty (Fields (In m))
           then TAB ++ "var in " ++ text (writeType (In m) true 1) ++ NL
                ++ concatS (map (assign "in") (Fields (In m)))
                ++ TAB ++ "return c_.Send(" ++ DQ ++ Name midl ++ "." ++ mName m ++ DQ
                ++ ", in, more_, oneway_)" ++ NL ++ "}" ++ NL ++ NL
           else TAB ++ "return c_.Send(" ++ DQ ++ Name midl ++ "." ++ mName m ++ DQ
                ++ ", nil, more_, oneway_)" ++ NL ++ "}" ++ NL ++ NL)
  /\ text (writeRead m)
     = "func Read" ++ mName m ++ "_(c *varlink.Connection"
       ++ concatS (map (fun field => ", " ++ localIdent field ++ " *" ++ plainType 1 field)
                       (Fields (Out m)))
       ++ ") (bool, error) {" ++ NL
       ++ (if nonEmpty (Fields (Out m))
           then TAB ++ "var out " ++ text (writeType (Out m) true 1) ++ NL
                ++ TAB ++ "continues_, err := c.Receive(&out)" ++ NL
           else TAB ++ "continues_, err := c.Receive(nil)" ++ NL)
       ++ TAB ++ "if err != nil {" ++ NL
       ++ TAB ++ TAB ++ "return false, err" ++ NL
       ++ TAB ++ "}" ++ NL
       ++ concatS (map (fun field =>
            TAB ++ "if " ++ localIdent field ++ " != nil {" ++ NL
            ++ (if converted field
                then TAB ++ TAB ++ "*" ++ localIdent field ++ " = " ++ plainType 2 field
                     ++ " (out." ++ member field ++ ")" ++ NL
                else TAB ++ TAB ++ "*" ++ localIdent field ++ " = out." ++ member field ++ NL)
            ++ TAB ++ "}" ++ NL) (Fields (Out m)))
       ++ TAB ++ "return continues_, nil" ++ NL ++ "}" ++ NL ++ NL
  /\ text (writeInterfaceMethod m)
     = TAB ++ mName m ++ "(c VarlinkCall" ++ concatS (map param (Fields (In m)))
       ++ ") error" ++ NL
  /\ text (writeReplyError midl e)
     = "func (c *VarlinkCall) Reply" ++ eName e ++ "(" ++ replyParams (Fields (eType e))
       ++ ") error {" ++ NL
       ++ (if nonEmpty (Fields (eType e))
           then TAB ++ "var out " ++ text (writeType (eType e) true 1) ++ NL
                ++ concatS (map (assign "out") (Fields (eType e)))
                ++ TAB ++ "return c.ReplyError(" ++ DQ ++ Name midl ++ "." ++ eName e ++ DQ
                ++ ", &out)" ++ NL
           else TAB ++ "return c.ReplyError(" ++ DQ ++ Name midl ++ "." ++ eName e ++ DQ
                ++ ", nil)" ++ NL)
       ++ "}" ++ NL ++ NL
  /\ text (writeReply m)
     = "func (c *VarlinkCall) Reply" ++ mName m ++ "(" ++ replyParams (Fields (Out m))
       ++ ") error {" ++ NL
       ++ (if nonEmpty (Fields (Out m))
           then TAB ++ "var out " ++ text (writeType (Out m) true 1) ++ NL
                ++ concatS (map (assign "out") (Fields (Out m)))
                ++ TAB ++ "return c.Reply(&out)" ++ NL
           else TAB ++ "return c.Reply(nil)" ++ NL)
       ++ "}" ++ NL ++ NL
  /\ text (writeDummy m)
     = "func (s *VarlinkInterface) " ++ mName m ++ "(c VarlinkCall"
       ++ concatS (map param (Fields (In m)))
       ++ ") error {" ++ NL
       ++ TAB ++ "return c.ReplyMethodNotImplemented(" ++ DQ ++ mName m ++ DQ ++ ")" ++ NL
       ++ "}" ++ NL ++ NL
  /\ (forall f fs ident,
        text (writeType (Struct (f :: fs)) true ident)
        = "struct {" ++ NL
          ++ concatS (map (fun field =>
               indent (ident + 1) ++ member field ++ " " ++ wireType (ident + 1) field
               ++ " `json:" ++ DQ ++ fName field
               ++ (if TypeKind_eqb (Kind (fType field)) TypeMaybe then ",omitempty" else "")
               ++ DQ ++ "`" ++ NL) (f :: fs))
          ++ indent ident ++ "}").
Proof.
  intros param replyParams assign.
  split; [|split; [|split; [|split; [|split; [|split; [|split]]]]]].
  - intros field Hkw.
    pose proof (sanitizeGoName_not_keyword (fName field)) as Hn.
    rewrite sanitizeGoName_localIdent in Hn.
    split; [|exact Hn]. unfold localIdent. now rewrite Hkw.
  - unfold writeCall. destruct (nonEmpty (Fields (In m))); emitter_text.
  - unfold writeRead. destruct (nonEmpty (Fields (Out m))); emitter_text.
  - unfold writeInterfaceMethod. emitter_text.
  - unfold writeReplyError. destruct (nonEmpty (Fields (eType e))); emitter_text.
  - unfold writeReply. destruct (nonEmpty (Fields (Out m))); emitter_text.
  - unfold writeDummy. emitter_text.
  - intros f fs ident. rewrite text_writeType_Struct.
    do 4 f_equal. apply map_ext. intros field.
    unfold fieldLine, wireTag, member, wireType.
    rewrite !StrFacts.app_assoc. reflexivity.
Qed.

Lemma reserved_name_suffixed_locally_kept_on_wire_witness :
  isGoKeyword "type" = true
  /\ text (writeInterfaceMethod
             (mkMethod "Get"
                (Struct [mkTypeField "type" Int; mkTypeField "keys" (Array String_)])
                (Struct [mkTypeField "range" String_])))
     = TAB ++ "Get(c VarlinkCall, type_ int64, keys []string) error" ++ NL
  /\ text (writeType (Struct [mkTypeField "type" Int]) true 0)
     = "struct {" ++ NL ++ TAB ++ "Type int64 `json:" ++ DQ ++ "type" ++ DQ ++ "`" ++ NL ++ "}".
Proof.
  pose proof (reserved_name_suffixed_locally_kept_on_wire storeInterface
                (mkMethod "Get"
                   (Struct [mkTypeField "type" Int; mkTypeField "keys" (Array String_)])
                   (Struct [mkTypeField "range" String_]))
                (mkError "Missing" (Struct [mkTypeField "func" String_]))) as H.
  cbv zeta in H.
  destruct H as [_ [_ [_ [Hi [_ [_ [_ Ht]]]]]]].
  split; [reflexivity|]. split.
  - exact Hi.
  - exact (Ht (mkTypeField "type" Int) [] 0).
Defined.
